(** * Span representations (encoders/pretrained_transformers/span_reprs.py)

    A shallow embedding of the span-pooling module: the five [SpanRepr]
    subclasses, their [forward] and [get_output_dim] methods and the
    factory [get_span_module].

    Conventions of the embedding.
    - A Python object is its class tag and its instance attribute store,
      a finite map from attribute names to values; reading an attribute
      that was never assigned raises [AttributeError].
    - Exceptions are explicit: a computation returns [Ok v] or [Raise e].
    - A tensor is a nested list; the element type is any [Scalar], with
      the exact rationals [Qc] as the executable instance and the reals
      [R] (which have [exp]) as the instance used for softmax.  Rounding
      and the non-finite values of machine floats are not represented.
    - [nn.Linear] is the tensor library's constructor; its parameter
      initialisation is outside this unit, so it is taken as a variable. *)

From Stdlib Require Import ZArith QArith Qcanon Reals Lra Lia.
From stdpp Require Import base option list strings gmap.

Local Open Scope string_scope.
Local Open Scope Z_scope.

(** ** Exceptions and results *)

Module Py.

Inductive exn : Type :=
  | NotImplementedError
  | AttributeError (attr : string)
  | IndexError
  | RuntimeError
  | TypeError.

Inductive result (T : Type) : Type :=
  | Ok (v : T)
  | Raise (e : exn).

Arguments Ok {T} v.
Arguments Raise {T} e.

Definition bind {T U : Type} (m : result T) (k : T -> result U) : result U :=
  match m with
  | Ok v => k v
  | Raise e => Raise e
  end.

#[global] Instance result_ret : MRet result := fun _ v => Ok v.
#[global] Instance result_bind : MBind result := fun _ _ k m => bind m k.

(** [seq[i]] on a sequence of length [length l]: a negative index counts
    from the end, an index outside [-len, len) raises [IndexError]. *)
Definition getitem {T : Type} (l : list T) (i : Z) : result T :=
  let n := Z.of_nat (length l) in
  let j := if i <? 0 then i + n else i in
  if (j <? 0) || (n <=? j) then Raise IndexError
  else match l !! Z.to_nat j with
       | Some v => Ok v
       | None => Raise IndexError
       end.

End Py.
Export Py.

(** ** Scalars: the element type of a tensor *)

Class Scalar (A : Type) : Type := {
  s0 : A;
  s1 : A;
  sadd : A -> A -> A;
  ssub : A -> A -> A;
  smul : A -> A -> A;
  sdiv : A -> A -> A;
  sopp : A -> A;
  sleb : A -> A -> bool;
  of_Z : Z -> A
}.

(** The element type also has the exponential (needed by softmax). *)
Class ScalarExp (A : Type) : Type := sexp : A -> A.

(** The laws of exact arithmetic the proofs rely on. *)
Class ScalarLaws (A : Type) `{Scalar A} : Prop := {
  sadd_0_l : forall x, sadd s0 x = x;
  sadd_0_r : forall x, sadd x s0 = x;
  smul_1_r : forall x, smul x s1 = x;
  smul_0_r : forall x, smul x s0 = s0;
  ssub_0_r : forall x, ssub x s0 = x;
  ssub_0_l : forall x, ssub s0 x = sopp x;
  ssub_diag : forall x, ssub x x = s0;
  sdiv_1_r : forall x, sdiv x s1 = x;
  of_Z_1 : of_Z 1 = s1;
  s1_neq_s0 : s1 <> s0;
  sleb_refl : forall x, sleb x x = true;
  sleb_total : forall x y, sleb x y = true \/ sleb y x = true;
  sleb_trans : forall x y z, sleb x y = true -> sleb y z = true -> sleb x z = true;
  sleb_antisym : forall x y, sleb x y = true -> sleb y x = true -> x = y
}.

Definition smax `{Scalar A} (x y : A) : A := if sleb x y then y else x.

(** The float literal [1e10]. *)
Definition big `{Scalar A} : A := of_Z 10000000000.

#[global] Instance Qc_Scalar : Scalar Qc := {|
  s0 := Q2Qc 0;
  s1 := Q2Qc 1;
  sadd := Qcplus;
  ssub := Qcminus;
  smul := Qcmult;
  sdiv := Qcdiv;
  sopp := Qcopp;
  sleb := fun x y => Qle_bool (this x) (this y);
  of_Z := fun z => Q2Qc (inject_Z z)
|}.

#[global] Instance R_Scalar : Scalar R := {|
  s0 := 0%R;
  s1 := 1%R;
  sadd := Rplus;
  ssub := Rminus;
  smul := Rmult;
  sdiv := Rdiv;
  sopp := Ropp;
  sleb := fun x y => if Rle_dec x y then true else false;
  of_Z := IZR
|}.

#[global] Instance R_ScalarExp : ScalarExp R := exp.

(** ** The tensor library: the operations this unit calls

    Shapes are written [B, L, D] (batch, sequence, channel).  Operands are
    assumed to have compatible shapes, as the theorems' hypotheses state;
    the library's shape-mismatch errors are not represented. *)

Module torch.
Section Tensor.
Context {A : Type} `{Scalar A}.

(** One dimension of broadcasting: a dimension of size 1 is stretched
    to the size of the other operand. *)
Definition broadcast {X Y Z : Type} (f : X -> Y -> Z)
    (xs : list X) (ys : list Y) : list Z :=
  match xs, ys with
  | [x], _ => f x <$> ys
  | _, [y] => (fun x => f x y) <$> xs
  | _, _ => zip_with f xs ys
  end.

(** Element-wise binary operations on tensors of rank 2 and 3. *)
Definition op2 (f : A -> A -> A) : list (list A) -> list (list A) -> list (list A) :=
  broadcast (broadcast f).
Definition op3 (f : A -> A -> A) :
    list (list (list A)) -> list (list (list A)) -> list (list (list A)) :=
  broadcast (broadcast (broadcast f)).

(** [scalar op tensor] and [tensor op scalar]. *)
Definition map3 (f : A -> A) (x : list (list (list A))) : list (list (list A)) :=
  (fun rows : list (list A) => (fun r : list A => f <$> r) <$> rows) <$> x.

(** [x.shape[0]] and [x.shape[1]]. *)
Definition shape_0 {T : Type} (x : list T) : Z := Z.of_nat (length x).
Definition shape_1 {T : Type} (x : list (list T)) : Z :=
  match x with
  | [] => 0
  | r :: _ => Z.of_nat (length r)
  end.

(** [torch.arange(n)]. *)
Definition arange (n : Z) : list Z := seqZ 0 n.

(** [t.unsqueeze(1)] on a rank-1 tensor and [t.float()] on an integer
    tensor of rank 2. *)
Definition unsqueeze_1 {T : Type} (t : list T) : list (list T) :=
  (fun v => [v]) <$> t.
Definition float (t : list (list Z)) : list (list A) :=
  (fun r : list Z => of_Z <$> r) <$> t.

(** [torch.sum(x, dim=1)]: the rows of every batch element are added up.
    A nested list with no rows carries no channel count; its sum is the
    empty row. *)
Definition sum_rows (rows : list (list A)) : list A :=
  match rows with
  | [] => []
  | r :: _ => foldr (zip_with sadd) (replicate (length r) s0) rows
  end.
Definition sum_dim1 (x : list (list (list A))) : list (list A) :=
  sum_rows <$> x.

(** [torch.max(x, dim=1)[0]]: the channel-wise maximum of the rows; the
    library refuses to reduce over an empty dimension. *)
Definition max_rows (rows : list (list A)) : result (list A) :=
  match rows with
  | [] => Raise RuntimeError
  | r :: rs => Ok (foldl (zip_with smax) r rs)
  end.
Definition max_dim1 (x : list (list (list A))) : result (list (list A)) :=
  mapM max_rows x.

(** [nn.functional.softmax(x, dim=1)]: every channel is normalised over
    the sequence axis. *)
Definition softmax_rows `{ScalarExp A} (rows : list (list A)) : list (list A) :=
  let e := (fun r : list A => sexp <$> r) <$> rows in
  let denom := sum_rows e in
  (fun r : list A => zip_with sdiv r denom) <$> e.
Definition softmax_dim1 `{ScalarExp A} (x : list (list (list A))) :
    list (list (list A)) :=
  softmax_rows <$> x.

(** [torch.cat([a, b], dim=1)] on rank-2 tensors. *)
Definition cat_dim1 (a b : list (list A)) : list (list A) := zip_with app a b.

(** [x[torch.arange(batch_size), ids, :]]: row [ids[b]] of batch element
    [b]. *)
Definition index_rows (x : list (list (list A))) (rng ids : list Z) :
    result (list (list A)) :=
  mapM (fun bi : Z * Z =>
          rows ← getitem x bi.1;
          getitem rows bi.2)
       (broadcast pair rng ids).

(** [nn.Linear]: the layer's parameters and its affine map
    [x W^T + b] on the last dimension. *)
Record Linear : Type := {
  in_features : Z;
  out_features : Z;
  weight : list (list A);
  bias : list A
}.

Definition dot (x w : list A) : A := foldr sadd s0 (zip_with smul x w).
Definition linear_row (l : Linear) (x : list A) : list A :=
  zip_with (fun w b => sadd (dot x w) b) (weight l) (bias l).
Definition Linear_forward (l : Linear) (x : list (list (list A))) :
    list (list (list A)) :=
  (fun rows : list (list A) => linear_row l <$> rows) <$> x.

End Tensor.
Arguments Linear A : clear implicits.
End torch.

(** ** utils.get_span_mask *)

Module utils.
Section Mask.
Context {A : Type} `{Scalar A}.

(** Modelled from the spec: [utils.get_span_mask] is imported by the unit
    but its module is not part of the sources.  Per the spec (4.1), for
    each batch element [b] and position [p] in [0, seq_len) the mask is 1
    iff [start_ids[b] <= p <= end_ids[b]], else 0, and it carries an added
    trailing dimension so that it broadcasts against [B, seq_len, D]. *)
Definition get_span_mask (start_ids end_ids : list Z) (max_len : Z) :
    list (list (list A)) :=
  zip_with
    (fun s e =>
       (fun p => [if (s <=? p) && (p <=? e) then s1 else s0])
         <$> torch.arange max_len)
    start_ids end_ids.

End Mask.
End utils.

(** ** Python objects *)

Inductive pyclass : Type :=
  | cls_MeanSpanRepr
  | cls_EndPointRepr
  | cls_DiffSumSpanRepr
  | cls_MaxSpanRepr
  | cls_AttnSpanRepr.

Section Objects.
Context {A : Type} `{Scalar A}.

(** The values an attribute of a span module holds. *)
Inductive value : Type :=
  | VInt (z : Z)
  | VBool (b : bool)
  | VModule (l : torch.Linear A).

(** An instance: its class and its attribute store.  [nn.Module.__init__]
    assigns only the library's own bookkeeping attributes, none of which
    this unit reads; they are left out of the store. *)
Record object : Type := {
  ob_class : pyclass;
  ob_attrs : gmap string value
}.

Definition new_object (c : pyclass) : object :=
  {| ob_class := c; ob_attrs := ∅ |}.

(** [self.name] *)
Definition getattr (self : object) (name : string) : result value :=
  match ob_attrs self !! name with
  | Some v => Ok v
  | None => Raise (AttributeError name)
  end.

(** [self.name = v] *)
Definition setattr (self : object) (name : string) (v : value) : object :=
  {| ob_class := ob_class self; ob_attrs := <[name := v]> (ob_attrs self) |}.

(** Truth value of an object in a condition. *)
Definition truthy (v : value) : bool :=
  match v with
  | VInt z => negb (z =? 0)
  | VBool b => b
  | VModule _ => true
  end.

(** [k * v] for an integer literal [k]. *)
Definition int_mul (k : Z) (v : value) : result value :=
  match v with
  | VInt z => Ok (VInt (k * z))
  | VBool b => Ok (VInt (k * Z.b2z b))
  | VModule _ => Raise TypeError
  end.

(** [m(x)] for an attribute [m] holding a layer. *)
Definition call_module (m : value) (x : list (list (list A))) :
    result (list (list (list A))) :=
  match m with
  | VModule l => Ok (torch.Linear_forward l x)
  | _ => Raise TypeError
  end.

End Objects.
Arguments value A : clear implicits.
Arguments object A : clear implicits.

(** ** The span representation classes *)

Section Classes.
Context {A : Type} `{Scalar A}.

(** The library's layer constructor [nn.Linear(in_features, out_features)]. *)
Variable nn_Linear : Z -> Z -> torch.Linear A.

(** *** class SpanRepr *)

Definition SpanRepr__init__ (self : object A)
    (input_dim : Z) (use_proj : bool) (proj_dim : Z) : object A :=
  let self := setattr self "input_dim" (VInt input_dim) in
  let self := setattr self "proj_dim" (VInt proj_dim) in
  let self := setattr self "use_proj" (VBool use_proj) in
  if use_proj
  then setattr self "proj" (VModule (nn_Linear input_dim proj_dim))
  else self.

Definition SpanRepr_get_input_dim (self : object A) : result (value A) :=
  getattr self "input_dim".

(** The first statement of every [forward]:
    [if self.use_proj: encoded_input = self.proj(encoded_input)]. *)
Definition apply_proj (self : object A) (encoded_input : list (list (list A))) :
    result (list (list (list A))) :=
  use_proj ← getattr self "use_proj";
  if truthy use_proj
  then proj ← getattr self "proj"; call_module proj encoded_input
  else Ok encoded_input.

(** *** class MeanSpanRepr *)

Definition MeanSpanRepr_forward (self : object A)
    (encoded_input : list (list (list A))) (start_ids end_ids : list Z) :
    result (list (list A)) :=
  encoded_input ← apply_proj self encoded_input;
  let span_lengths :=
    torch.unsqueeze_1
      ((fun v => v + 1) <$> torch.broadcast Z.sub end_ids start_ids) in
  let span_masks :=
    utils.get_span_mask start_ids end_ids (torch.shape_1 encoded_input) in
  let span_repr :=
    torch.op2 sdiv
      (torch.sum_dim1 (torch.op3 smul encoded_input span_masks))
      (torch.float span_lengths) in
  Ok span_repr.

Definition MeanSpanRepr_get_output_dim (self : object A) : result (value A) :=
  use_proj ← getattr self "use_proj";
  if truthy use_proj
  then getattr self "proj_dim"
  else getattr self "input_dim".

(** *** class EndPointRepr *)

Definition EndPointRepr_forward (self : object A)
    (encoded_input : list (list (list A))) (start_ids end_ids : list Z) :
    result (list (list A)) :=
  encoded_input ← apply_proj self encoded_input;
  let batch_size := torch.shape_0 encoded_input in
  at_start ← torch.index_rows encoded_input (torch.arange batch_size) start_ids;
  at_end ← torch.index_rows encoded_input (torch.arange batch_size) end_ids;
  let span_repr := torch.cat_dim1 at_start at_end in
  Ok span_repr.

Definition EndPointRepr_get_output_dim (self : object A) : result (value A) :=
  use_proj ← getattr self "use_proj";
  if truthy use_proj
  then proj_dim ← getattr self "proj_dim"; int_mul 2 proj_dim
  else input_dim ← getattr self "input_dim"; int_mul 2 input_dim.

(** *** class DiffSumSpanRepr *)

Definition DiffSumSpanRepr_forward (self : object A)
    (encoded_input : list (list (list A))) (start_ids end_ids : list Z) :
    result (list (list A)) :=
  encoded_input ← apply_proj self encoded_input;
  let batch_size := torch.shape_0 encoded_input in
  e1 ← torch.index_rows encoded_input (torch.arange batch_size) end_ids;
  b1 ← torch.index_rows encoded_input (torch.arange batch_size) start_ids;
  e2 ← torch.index_rows encoded_input (torch.arange batch_size) end_ids;
  b2 ← torch.index_rows encoded_input (torch.arange batch_size) start_ids;
  let span_repr :=
    torch.cat_dim1 (torch.op2 ssub e1 b1) (torch.op2 sadd e2 b2) in
  Ok span_repr.

Definition DiffSumSpanRepr_get_output_dim (self : object A) : result (value A) :=
  use_proj ← getattr self "use_proj";
  if truthy use_proj
  then proj_dim ← getattr self "proj_dim"; int_mul 2 proj_dim
  else input_dim ← getattr self "input_dim"; int_mul 2 input_dim.

(** *** class MaxSpanRepr *)

Definition MaxSpanRepr_forward (self : object A)
    (encoded_input : list (list (list A))) (start_ids end_ids : list Z) :
    result (list (list A)) :=
  encoded_input ← apply_proj self encoded_input;
  let span_masks :=
    utils.get_span_mask start_ids end_ids (torch.shape_1 encoded_input) in
  let tmp_repr :=
    torch.op3 ssub
      (torch.op3 smul encoded_input span_masks)
      (torch.map3 (smul big) (torch.map3 (ssub s1) span_masks)) in
  span_repr ← torch.max_dim1 tmp_repr;
  Ok span_repr.

Definition MaxSpanRepr_get_output_dim (self : object A) : result (value A) :=
  use_proj ← getattr self "use_proj";
  if truthy use_proj
  then getattr self "proj_dim"
  else getattr self "input_dim".

(** *** class AttnSpanRepr *)

Definition AttnSpanRepr__init__ (self : object A)
    (input_dim : Z) (use_proj : bool) (proj_dim : Z) : object A :=
  let self := SpanRepr__init__ self input_dim use_proj proj_dim in
  let input_dim := if use_proj then proj_dim else input_dim in
  setattr self "attention_params" (VModule (nn_Linear input_dim 1)).

(** The attention weights of [forward] (its local [attention_wts]),
    computed from the already projected input. *)
Definition AttnSpanRepr_attention_wts `{ScalarExp A} (self : object A)
    (encoded_input : list (list (list A))) (start_ids end_ids : list Z) :
    result (list (list (list A))) :=
  let span_mask :=
    utils.get_span_mask start_ids end_ids (torch.shape_1 encoded_input) in
  let attn_mask :=
    torch.map3 (fun v => smul v (sopp big)) (torch.map3 (ssub s1) span_mask) in
  attention_params ← getattr self "attention_params";
  scores ← call_module attention_params encoded_input;
  let attn_logits := torch.op3 sadd scores attn_mask in
  let attention_wts := torch.softmax_dim1 attn_logits in
  Ok attention_wts.

Definition AttnSpanRepr_forward `{ScalarExp A} (self : object A)
    (encoded_input : list (list (list A))) (start_ids end_ids : list Z) :
    result (list (list A)) :=
  encoded_input ← apply_proj self encoded_input;
  attention_wts ← AttnSpanRepr_attention_wts self encoded_input start_ids end_ids;
  let attention_term :=
    torch.sum_dim1 (torch.op3 smul attention_wts encoded_input) in
  Ok attention_term.

Definition AttnSpanRepr_get_output_dim (self : object A) : result (value A) :=
  use_endpoints ← getattr self "use_endpoints";
  if negb (truthy use_endpoints)
  then
    use_proj ← getattr self "use_proj";
    if truthy use_proj
    then getattr self "proj_dim"
    else getattr self "input_dim"
  else
    use_proj ← getattr self "use_proj";
    if truthy use_proj
    then proj_dim ← getattr self "proj_dim"; int_mul 3 proj_dim
    else input_dim ← getattr self "input_dim"; int_mul 3 input_dim.

(** *** Instantiation and method dispatch *)

(** [C(input_dim, use_proj=use_proj, proj_dim=proj_dim)]: a fresh instance
    of class [C], initialised by the [__init__] the class resolves to. *)
Definition instantiate (c : pyclass)
    (input_dim : Z) (use_proj : bool) (proj_dim : Z) : object A :=
  match c with
  | cls_AttnSpanRepr =>
      AttnSpanRepr__init__ (new_object c) input_dim use_proj proj_dim
  | _ => SpanRepr__init__ (new_object c) input_dim use_proj proj_dim
  end.

(** [self.get_output_dim()] *)
Definition get_output_dim (self : object A) : result (value A) :=
  match ob_class self with
  | cls_MeanSpanRepr => MeanSpanRepr_get_output_dim self
  | cls_EndPointRepr => EndPointRepr_get_output_dim self
  | cls_DiffSumSpanRepr => DiffSumSpanRepr_get_output_dim self
  | cls_MaxSpanRepr => MaxSpanRepr_get_output_dim self
  | cls_AttnSpanRepr => AttnSpanRepr_get_output_dim self
  end.

(** [self(encoded_input, start_ids, end_ids)] *)
Definition forward `{ScalarExp A} (self : object A)
    (encoded_input : list (list (list A))) (start_ids end_ids : list Z) :
    result (list (list A)) :=
  match ob_class self with
  | cls_MeanSpanRepr => MeanSpanRepr_forward self encoded_input start_ids end_ids
  | cls_EndPointRepr => EndPointRepr_forward self encoded_input start_ids end_ids
  | cls_DiffSumSpanRepr => DiffSumSpanRepr_forward self encoded_input start_ids end_ids
  | cls_MaxSpanRepr => MaxSpanRepr_forward self encoded_input start_ids end_ids
  | cls_AttnSpanRepr => AttnSpanRepr_forward self encoded_input start_ids end_ids
  end.

(** *** The factory

    [get_span_module(input_dim, method="avg", use_proj=False, proj_dim=256)];
    an omitted keyword argument is [None] and takes its default. *)
Definition get_span_module (input_dim : Z) (method : option string)
    (use_proj : option bool) (proj_dim : option Z) : result (object A) :=
  let method := default "avg" method in
  let use_proj := default false use_proj in
  let proj_dim := default 256 proj_dim in
  if String.eqb method "mean" then
    Ok (instantiate cls_MeanSpanRepr input_dim use_proj proj_dim)
  else if String.eqb method "max" then
    Ok (instantiate cls_MaxSpanRepr input_dim use_proj proj_dim)
  else if String.eqb method "diff_sum" then
    Ok (instantiate cls_DiffSumSpanRepr input_dim use_proj proj_dim)
  else if String.eqb method "endpoint" then
    Ok (instantiate cls_EndPointRepr input_dim use_proj proj_dim)
  else if String.eqb method "attn" then
    Ok (instantiate cls_AttnSpanRepr input_dim use_proj proj_dim)
  else Raise NotImplementedError.

End Classes.

(** ** Specification-side vocabulary *)

Section SpecDefs.
Context {A : Type} `{Scalar A}.

(** The five tags the factory recognises. *)
Definition recognized_tags : list string :=
  ["mean"; "max"; "diff_sum"; "endpoint"; "attn"].

(** The output-dimension table of the spec (4.3): [D] for mean, max and
    attention, [2D] for endpoint and diff/sum, where [D] is [proj_dim]
    when the projection is active and [input_dim] otherwise. *)
Definition table_output_dim (c : pyclass)
    (input_dim : Z) (use_proj : bool) (proj_dim : Z) : Z :=
  let d := if use_proj then proj_dim else input_dim in
  match c with
  | cls_MeanSpanRepr | cls_MaxSpanRepr | cls_AttnSpanRepr => d
  | cls_EndPointRepr | cls_DiffSumSpanRepr => 2 * d
  end.

(** The (optionally projected) encoded input of an instance built with
    the given constructor arguments. *)
Definition projected (nn_Linear : Z -> Z -> torch.Linear A)
    (input_dim : Z) (use_proj : bool) (proj_dim : Z)
    (encoded_input : list (list (list A))) : list (list (list A)) :=
  if use_proj
  then torch.Linear_forward (nn_Linear input_dim proj_dim) encoded_input
  else encoded_input.

(** A rank-3 tensor of shape [B, L, D]. *)
Definition shape3 (B L D : nat) (x : list (list (list A))) : Prop :=
  length x = B /\
  Forall (fun rows => length rows = L /\ Forall (fun r => length r = D) rows) x.

(** Span boundaries in range for sequence length [L]. *)
Definition in_range (L : nat) (s e : Z) : Prop :=
  0 <= s /\ s <= e /\ e < Z.of_nat L.

(** The rows at positions [s..e], inclusive. *)
Definition span_rows (rows : list (list A)) (s e : Z) : list (list A) :=
  take (Z.to_nat (e - s + 1)) (drop (Z.to_nat s) rows).

(** [m] is the maximum of channel [d] over the positions [s..e]. *)
Definition is_span_max (rows : list (list A)) (s e : Z) (d : nat) (m : A) : Prop :=
  (exists p r, s <= p <= e /\ rows !! Z.to_nat p = Some r /\ r !! d = Some m) /\
  (forall p r v, s <= p <= e -> rows !! Z.to_nat p = Some r -> r !! d = Some v ->
                 sleb v m = true).

(** Row [b] of the mask, as a function of the boundaries of [b]. *)
Definition mask_row (s e : Z) (max_len : Z) : list (list A) :=
  (fun p => [if (s <=? p) && (p <=? e) then s1 else s0]) <$> torch.arange max_len.

(** The attention logits of one batch element, position by position:
    the score [x . w + c] of the token plus the mask penalty
    [(1 - mask) * (-1e10)]. *)
Definition attn_logits (w : list A) (c : A) (s e : Z)
    (rows : list (list A)) : list A :=
  zip_with
    (fun p r =>
       sadd (sadd (torch.dot r w) c)
            (smul (ssub s1 (if (s <=? p) && (p <=? e) then s1 else s0))
                  (sopp big)))
    (seqZ 0 (Z.of_nat (length rows))) rows.

(** Softmax of a list of logits. *)
Definition softmax_list `{ScalarExp A} (lg : list A) : list A :=
  (fun v => sdiv (sexp v) (foldr sadd s0 (sexp <$> lg))) <$> lg.

(** The width of every row of a returned tensor is the number the
    instance reports through [get_output_dim]. *)
Definition agrees_with_output_dim (reported : result (value A))
    (res : result (list (list A))) : Prop :=
  exists out w,
    res = Ok out /\ reported = Ok (VInt w) /\
    Forall (fun r => Z.of_nat (length r) = w) out.

End SpecDefs.

(** ** Concrete inputs

    A deterministic stand-in for the library's layer constructor (all
    weights 1, all biases 0) and the tensors of the spec's end-to-end
    scenario, used to run the definitions. *)

Definition ones_Linear {A : Type} `{Scalar A} (i o : Z) : torch.Linear A :=
  {| torch.in_features := i;
     torch.out_features := o;
     torch.weight := replicate (Z.to_nat o) (replicate (Z.to_nat i) s1);
     torch.bias := replicate (Z.to_nat o) s0 |}.

Definition qc (z : Z) : Qc := Q2Qc (inject_Z z).

(** [torch.arange(20).reshape(1, 5, 4)] *)
Definition scenario_input : list (list (list Qc)) :=
  [[ [qc 0; qc 1; qc 2; qc 3];
     [qc 4; qc 5; qc 6; qc 7];
     [qc 8; qc 9; qc 10; qc 11];
     [qc 12; qc 13; qc 14; qc 15];
     [qc 16; qc 17; qc 18; qc 19] ]].

(** One batch element of two positions and one channel, the first
    position holding [-2e10]. *)
Definition low_input : list (list (list Qc)) :=
  [[ [qc (-20000000000)]; [qc 0] ]].

(** One batch element of two positions and one channel, the second
    position holding [1e10]. *)
Definition high_input : list (list (list R)) :=
  [[ [0%R]; [big] ]].

(** * Theorems *)

(** ** The factory and the output dimensions *)

Section FactoryFacts.
Context {A : Type} `{Scalar A}.
Variable nn_Linear : Z -> Z -> torch.Linear A.

Lemma eqb_tag_false (method tag : string) :
  method <> tag -> String.eqb method tag = false.
Proof. intros Hne. by apply String.eqb_neq. Qed.

(** C1. A method string outside the five recognised tags makes the
    factory raise [NotImplementedError] (the factory's own result, so at
    construction time); each recognised tag makes it return the instance
    built by the one matching class. *)
Theorem get_span_module_dispatch :
  (forall input_dim (method : string) use_proj proj_dim,
     method ∉ recognized_tags ->
     get_span_module nn_Linear input_dim (Some method) use_proj proj_dim
     = Raise NotImplementedError) /\
  (forall input_dim use_proj proj_dim,
     let up := default false use_proj in
     let pd := default 256 proj_dim in
     get_span_module nn_Linear input_dim (Some "mean") use_proj proj_dim
     = Ok (instantiate nn_Linear cls_MeanSpanRepr input_dim up pd) /\
     get_span_module nn_Linear input_dim (Some "max") use_proj proj_dim
     = Ok (instantiate nn_Linear cls_MaxSpanRepr input_dim up pd) /\
     get_span_module nn_Linear input_dim (Some "diff_sum") use_proj proj_dim
     = Ok (instantiate nn_Linear cls_DiffSumSpanRepr input_dim up pd) /\
     get_span_module nn_Linear input_dim (Some "endpoint") use_proj proj_dim
     = Ok (instantiate nn_Linear cls_EndPointRepr input_dim up pd) /\
     get_span_module nn_Linear input_dim (Some "attn") use_proj proj_dim
     = Ok (instantiate nn_Linear cls_AttnSpanRepr input_dim up pd)).
Proof.
  split.
  - intros input_dim method use_proj proj_dim Hnot.
    unfold recognized_tags in Hnot.
    repeat (apply not_elem_of_cons in Hnot; destruct Hnot as [? Hnot]).
    unfold get_span_module; simpl.
    by rewrite !eqb_tag_false.
  - intros input_dim use_proj proj_dim up pd. by repeat split.
Qed.

(** C10. With [method] omitted the default ["avg"] applies, which is not
    a recognised tag: the factory raises [NotImplementedError] whatever
    the other arguments are. *)
Theorem get_span_module_default_method_raises :
  forall input_dim use_proj proj_dim,
    get_span_module nn_Linear input_dim None use_proj proj_dim
    = Raise NotImplementedError.
Proof. done. Qed.

(** The attributes [SpanRepr.__init__] leaves on an instance. *)
Lemma SpanRepr_init_attrs (self : object A) input_dim use_proj proj_dim :
  let self' := SpanRepr__init__ nn_Linear self input_dim use_proj proj_dim in
  getattr self' "input_dim" = Ok (VInt input_dim) /\
  getattr self' "proj_dim" = Ok (VInt proj_dim) /\
  getattr self' "use_proj" = Ok (VBool use_proj) /\
  (use_proj = true ->
   getattr self' "proj" = Ok (VModule (nn_Linear input_dim proj_dim))) /\
  getattr self' "use_endpoints" = getattr self "use_endpoints" /\
  ob_class self' = ob_class self.
Proof.
  unfold SpanRepr__init__, getattr, setattr.
  destruct use_proj; simpl; by simplify_map_eq.
Qed.

Lemma instantiate_attrs c input_dim use_proj proj_dim :
  let self := instantiate nn_Linear c input_dim use_proj proj_dim in
  getattr self "input_dim" = Ok (VInt input_dim) /\
  getattr self "proj_dim" = Ok (VInt proj_dim) /\
  getattr self "use_proj" = Ok (VBool use_proj) /\
  (use_proj = true ->
   getattr self "proj" = Ok (VModule (nn_Linear input_dim proj_dim))) /\
  getattr self "use_endpoints" = Raise (AttributeError "use_endpoints") /\
  ob_class self = c.
Proof.
  pose proof (SpanRepr_init_attrs (new_object c) input_dim use_proj proj_dim)
    as (Hi & Hp & Hu & Hproj & He & Hc).
  destruct c; simpl; try by repeat split.
  unfold AttnSpanRepr__init__, getattr, setattr in *; simpl in *.
  rewrite !lookup_insert_ne by done.
  by repeat split.
Qed.

End FactoryFacts.

Section OutputDims.
Context {A : Type} `{Scalar A}.
Variable nn_Linear : Z -> Z -> torch.Linear A.

(** For the four classes whose [get_output_dim] reads only attributes
    that [__init__] assigns, the method returns the table value. *)
Lemma get_output_dim_table c input_dim use_proj proj_dim :
  c <> cls_AttnSpanRepr ->
  get_output_dim (instantiate nn_Linear c input_dim use_proj proj_dim)
  = Ok (VInt (table_output_dim c input_dim use_proj proj_dim)).
Proof.
  intros Hc.
  pose proof (instantiate_attrs nn_Linear c input_dim use_proj proj_dim)
    as (Hi & Hp & Hu & _ & _ & Hcls).
  unfold get_output_dim. rewrite Hcls.
  destruct c; try done;
    unfold MeanSpanRepr_get_output_dim, EndPointRepr_get_output_dim,
      DiffSumSpanRepr_get_output_dim, MaxSpanRepr_get_output_dim;
    rewrite Hu; simpl; destruct use_proj; simpl;
    rewrite ?Hi, ?Hp; done.
Qed.

(** C3. Every [AttnSpanRepr] instance the constructor can produce lacks
    the attribute [use_endpoints], which [get_output_dim] reads first:
    the call raises [AttributeError], for all constructor arguments, and
    so does it on the object the factory returns for ["attn"]. *)
Theorem AttnSpanRepr_get_output_dim_raises :
  forall input_dim use_proj proj_dim,
    let self := instantiate nn_Linear cls_AttnSpanRepr input_dim use_proj proj_dim in
    ob_attrs self !! "use_endpoints" = None /\
    AttnSpanRepr_get_output_dim self = Raise (AttributeError "use_endpoints") /\
    get_output_dim self = Raise (AttributeError "use_endpoints") /\
    get_span_module nn_Linear input_dim (Some "attn") (Some use_proj) (Some proj_dim)
    = Ok self.
Proof.
  intros input_dim use_proj proj_dim self.
  pose proof (instantiate_attrs nn_Linear cls_AttnSpanRepr input_dim use_proj proj_dim)
    as (_ & _ & _ & _ & He & Hcls).
  fold self in He, Hcls.
  assert (Hget : AttnSpanRepr_get_output_dim self
                 = Raise (AttributeError "use_endpoints")).
  { unfold AttnSpanRepr_get_output_dim. by rewrite He. }
  repeat split; try done.
  - unfold getattr in He. by destruct (ob_attrs self !! "use_endpoints").
  - unfold get_output_dim. by rewrite Hcls.
Qed.

(** C2, at the input where the code departs from the table: the object
    built for ["attn"] with [input_dim = 768] does not report 768, its
    [get_output_dim] raises [AttributeError]. *)
Theorem get_span_module_attn_output_dim :
  table_output_dim cls_AttnSpanRepr 768 false 256 = 768 /\
  (self ← get_span_module nn_Linear 768 (Some "attn") None None;
   get_output_dim self)
  = Raise (AttributeError "use_endpoints").
Proof.
  split; [done |].
  pose proof (instantiate_attrs nn_Linear cls_AttnSpanRepr 768 false 256)
    as (_ & _ & _ & _ & He & Hcls).
  change (get_output_dim (instantiate nn_Linear cls_AttnSpanRepr 768 false 256)
          = Raise (AttributeError "use_endpoints")).
  unfold get_output_dim. rewrite Hcls.
  unfold AttnSpanRepr_get_output_dim. by rewrite He.
Qed.

End OutputDims.

(** ** Facts about the tensor operations *)

Section TensorFacts.
Context {A : Type} `{Scalar A}.

Lemma broadcast_zip {X Y Z : Type} (f : X -> Y -> Z) xs ys :
  length xs = length ys -> torch.broadcast f xs ys = zip_with f xs ys.
Proof. by destruct xs as [|x [|x' xs]], ys as [|y [|y' ys]]. Qed.

Lemma broadcast_singleton_r {X Y Z : Type} (f : X -> Y -> Z) xs y :
  torch.broadcast f xs [y] = (fun x => f x y) <$> xs.
Proof. by destruct xs as [|x [|x' xs]]. Qed.

Lemma broadcast_singleton_l {X Y Z : Type} (f : X -> Y -> Z) x ys :
  torch.broadcast f [x] ys = f x <$> ys.
Proof. done. Qed.

Lemma mapM_Ok {X Y : Type} (f : X -> result Y) (g : X -> Y) (l : list X) :
  (forall a, a ∈ l -> f a = Ok (g a)) -> mapM f l = Ok (g <$> l).
Proof.
  induction l as [|a l IH]; intros Hf; [done |].
  simpl. rewrite (Hf a) by apply list_elem_of_here.
  simpl. rewrite IH; [done |].
  intros b Hb. apply Hf. by apply list_elem_of_further.
Qed.

Lemma getitem_Ok {T : Type} (l : list T) (i : Z) (v : T) :
  0 <= i -> l !! Z.to_nat i = Some v -> getitem l i = Ok v.
Proof.
  intros Hi Hv. unfold getitem.
  apply lookup_lt_Some in Hv as Hlt.
  destruct (Z.ltb_spec i 0); [lia |].
  destruct (Z.ltb_spec i 0); [lia |]. simpl.
  destruct (Z.leb_spec (Z.of_nat (length l)) i); [lia |].
  by rewrite Hv.
Qed.

Lemma index_rows_Ok (x : list (list (list A))) (ids : list Z) (L : nat) :
  length ids = length x ->
  Forall (fun rows => length rows = L) x ->
  Forall (fun i => 0 <= i < Z.of_nat L) ids ->
  torch.index_rows x (torch.arange (torch.shape_0 x)) ids
  = Ok (zip_with (fun rows i => default [] (rows !! Z.to_nat i)) x ids).
Proof.
  intros Hlen Hx Hids. unfold torch.index_rows, torch.arange, torch.shape_0.
  rewrite broadcast_zip by (rewrite length_seqZ; lia).
  rewrite (mapM_Ok _ (fun bi : Z * Z =>
             default [] (default [] (x !! Z.to_nat bi.1) !! Z.to_nat bi.2))).
  - f_equal. apply list_eq. intros k.
    rewrite list_lookup_fmap, !lookup_zip_with.
    destruct (x !! k) as [rows|] eqn:Hk; simpl.
    + rewrite lookup_seqZ_lt by (apply lookup_lt_Some in Hk; lia). simpl.
      destruct (ids !! k) as [i|]; simpl; [| done].
      by rewrite Z.add_0_l, Nat2Z.id, Hk.
    + apply lookup_ge_None in Hk.
      rewrite lookup_seqZ_ge by lia. done.
  - intros [b i] Hin.
    apply list_elem_of_lookup in Hin as [k Hk].
    apply lookup_zip_with_Some in Hk as (b' & i' & [= <- <-] & Hb & Hi).
    apply lookup_seqZ in Hb as [-> Hb]. simpl.
    destruct (lookup_lt_is_Some_2 x k) as [rows Hrows]; [lia |].
    rewrite Z.add_0_l.
    rewrite (getitem_Ok x _ rows); [| lia | by rewrite Nat2Z.id]. simpl.
    rewrite Nat2Z.id, Hrows. simpl.
    assert (Hr : length rows = L)
      by (eapply (proj1 (Forall_lookup _ _) Hx); done).
    assert (Hi' : 0 <= i < Z.of_nat L)
      by (eapply (proj1 (Forall_lookup _ _) Hids); done).
    destruct (lookup_lt_is_Some_2 rows (Z.to_nat i)) as [r Hrow]; [lia |].
    rewrite (getitem_Ok rows i r); [| lia | done].
    by rewrite Hrow.
Qed.

End TensorFacts.

Section ProjectionFacts.
Context {A : Type} `{Scalar A}.
Variable nn_Linear : Z -> Z -> torch.Linear A.

(** On an instance built by a constructor, the first statement of
    [forward] yields the optionally projected input. *)
Lemma apply_proj_instantiate c input_dim use_proj proj_dim x :
  apply_proj (instantiate nn_Linear c input_dim use_proj proj_dim) x
  = Ok (projected nn_Linear input_dim use_proj proj_dim x).
Proof.
  pose proof (instantiate_attrs nn_Linear c input_dim use_proj proj_dim)
    as (_ & _ & Hu & Hproj & _ & _).
  unfold apply_proj, projected. rewrite Hu. simpl.
  destruct use_proj; simpl; [| done].
  by rewrite Hproj.
Qed.

(** The shape of the optionally projected input: the projection maps
    every token vector to one value per output unit of the layer. *)
Lemma projected_shape (input_dim : Z) (use_proj : bool) (proj_dim : Z)
    (x : list (list (list A))) (B L D Dp : nat) :
  shape3 B L D x ->
  length (torch.weight (nn_Linear input_dim proj_dim)) = Dp ->
  length (torch.bias (nn_Linear input_dim proj_dim)) = Dp ->
  shape3 B L (if use_proj then Dp else D)
    (projected nn_Linear input_dim use_proj proj_dim x).
Proof.
  intros [HB Hx] Hw Hb. unfold projected.
  destruct use_proj; [| by split].
  unfold torch.Linear_forward. split; [by rewrite length_fmap |].
  apply Forall_fmap. eapply Forall_impl; [exact Hx |].
  intros rows [HL _]. simpl. split; [by rewrite length_fmap |].
  apply Forall_fmap, Forall_forall. intros r _. simpl.
  unfold torch.linear_row. rewrite length_zip_with, Hw, Hb. lia.
Qed.

End ProjectionFacts.

Section ShapeFacts.
Context {A : Type} `{Scalar A}.

Lemma in_range_starts (L : nat) starts ends :
  Forall2 (in_range L) starts ends ->
  Forall (fun i => 0 <= i < Z.of_nat L) starts.
Proof.
  induction 1 as [|s e ? ? (? & ? & ?)]; constructor; [lia | done].
Qed.

Lemma in_range_ends (L : nat) starts ends :
  Forall2 (in_range L) starts ends ->
  Forall (fun i => 0 <= i < Z.of_nat L) ends.
Proof.
  induction 1 as [|s e ? ? (? & ? & ?)]; constructor; [lia | done].
Qed.

Lemma shape3_rows (B L D : nat) (x : list (list (list A))) :
  shape3 B L D x -> Forall (fun rows => length rows = L) x.
Proof. intros [_ Hx]. eapply Forall_impl; [done |]. by intros rows [? _]. Qed.

Lemma shape3_lookup (B L D : nat) (x : list (list (list A))) b rows :
  shape3 B L D x -> x !! b = Some rows ->
  length rows = L /\ Forall (fun r => length r = D) rows.
Proof. intros [_ Hx] Hb. by eapply (proj1 (Forall_lookup _ _) Hx). Qed.

Lemma op2_same_shape (f : A -> A -> A) (a b : list (list A)) (D : nat) :
  length a = length b ->
  Forall (fun r => length r = D) a ->
  Forall (fun r => length r = D) b ->
  torch.op2 f a b = zip_with (zip_with f) a b.
Proof.
  intros Hlen Ha Hb. unfold torch.op2. rewrite broadcast_zip by done.
  apply list_eq. intros k. rewrite !lookup_zip_with.
  destruct (a !! k) as [ra|] eqn:Hra; simpl; [| done].
  destruct (b !! k) as [rb|] eqn:Hrb; simpl; [| done].
  f_equal. apply broadcast_zip.
  rewrite (proj1 (Forall_lookup _ _) Ha _ _ Hra).
  by rewrite (proj1 (Forall_lookup _ _) Hb _ _ Hrb).
Qed.

(** The rows selected at in-range positions of a [B, L, D] tensor. *)
Lemma picked_rows (B L D : nat) (x : list (list (list A))) (ids : list Z) :
  shape3 B L D x -> length ids = B ->
  Forall (fun i => 0 <= i < Z.of_nat L) ids ->
  let picked := zip_with (fun rows i => default [] (rows !! Z.to_nat i)) x ids in
  length picked = B /\
  Forall (fun r => length r = D) picked /\
  forall b i rows, ids !! b = Some i -> x !! b = Some rows ->
    exists r, rows !! Z.to_nat i = Some r /\ picked !! b = Some r.
Proof.
  intros Hx Hlen Hids picked. pose proof Hx as [HB _].
  split; [| split].
  - unfold picked. rewrite length_zip_with. lia.
  - apply Forall_lookup. intros b r Hr.
    apply lookup_zip_with_Some in Hr as (rows & i & -> & Hrows & Hi).
    destruct (shape3_lookup _ _ _ _ _ _ Hx Hrows) as [HL HD].
    pose proof (proj1 (Forall_lookup _ _) Hids _ _ Hi) as Hi'. simpl in Hi'.
    destruct (lookup_lt_is_Some_2 rows (Z.to_nat i)) as [r Hr]; [lia |].
    rewrite Hr. simpl. by eapply (proj1 (Forall_lookup _ _) HD).
  - intros b i rows Hi Hrows.
    destruct (shape3_lookup _ _ _ _ _ _ Hx Hrows) as [HL HD].
    pose proof (proj1 (Forall_lookup _ _) Hids _ _ Hi) as Hi'. simpl in Hi'.
    destruct (lookup_lt_is_Some_2 rows (Z.to_nat i)) as [r Hr]; [lia |].
    exists r. split; [done |].
    unfold picked. rewrite lookup_zip_with, Hrows. simpl. rewrite Hi. simpl.
    by rewrite Hr.
Qed.

End ShapeFacts.

(** ** The boundary-token representations *)

Section EndpointFacts.
Context {A : Type} `{Scalar A}.
Variable nn_Linear : Z -> Z -> torch.Linear A.

(** C6. On a [B, L, D] (optionally projected) input with in-range span
    boundaries, [EndPointRepr.forward] returns a [B, 2D] tensor whose
    row [b] is the token vector at [start_ids[b]] followed by the token
    vector at [end_ids[b]]. *)
Theorem EndPointRepr_forward_concat :
  forall input_dim use_proj proj_dim x start_ids end_ids (B L D : nat),
    let self := instantiate nn_Linear cls_EndPointRepr input_dim use_proj proj_dim in
    let x' := projected nn_Linear input_dim use_proj proj_dim x in
    shape3 B L D x' ->
    length start_ids = B -> length end_ids = B ->
    Forall2 (in_range L) start_ids end_ids ->
    exists out,
      EndPointRepr_forward self x start_ids end_ids = Ok out /\
      length out = B /\
      Forall (fun r => length r = (2 * D)%nat) out /\
      forall b s e rows,
        start_ids !! b = Some s -> end_ids !! b = Some e ->
        x' !! b = Some rows ->
        exists vs ve,
          rows !! Z.to_nat s = Some vs /\ rows !! Z.to_nat e = Some ve /\
          out !! b = Some (vs ++ ve)%list.
Proof.
  intros input_dim use_proj proj_dim x start_ids end_ids B L D self x'
    Hx Hs He Hrange.
  pose proof Hx as [HB _].
  pose proof (in_range_starts _ _ _ Hrange) as Hsr.
  pose proof (in_range_ends _ _ _ Hrange) as Her.
  destruct (picked_rows B L D x' start_ids Hx Hs Hsr) as (Hls & Hds & Hps).
  destruct (picked_rows B L D x' end_ids Hx He Her) as (Hle & Hde & Hpe).
  unfold EndPointRepr_forward, self.
  rewrite apply_proj_instantiate. fold x'. simpl.
  rewrite (index_rows_Ok x' start_ids L), (index_rows_Ok x' end_ids L);
    [| by (try lia; try apply (shape3_rows B L D)) ..].
  simpl. eexists. split; [done |].
  unfold torch.cat_dim1. split; [| split].
  - rewrite length_zip_with. lia.
  - apply Forall_lookup. intros b r Hr.
    apply lookup_zip_with_Some in Hr as (vs & ve & -> & Hvs & Hve).
    rewrite length_app.
    rewrite (proj1 (Forall_lookup _ _) Hds _ _ Hvs).
    rewrite (proj1 (Forall_lookup _ _) Hde _ _ Hve). lia.
  - intros b s e rows Hbs Hbe Hrows.
    destruct (Hps b s rows Hbs Hrows) as (vs & Hvs & Hpvs).
    destruct (Hpe b e rows Hbe Hrows) as (ve & Hve & Hpve).
    exists vs, ve. repeat split; try done.
    rewrite lookup_zip_with, Hpvs. simpl. by rewrite Hpve.
Qed.

(** C7. On a [B, L, D] (optionally projected) input with in-range span
    boundaries, [DiffSumSpanRepr.forward] returns a [B, 2D] tensor whose
    row [b] is [vec[end] - vec[start]] followed by [vec[end] + vec[start]]. *)
Theorem DiffSumSpanRepr_forward_concat :
  forall input_dim use_proj proj_dim x start_ids end_ids (B L D : nat),
    let self := instantiate nn_Linear cls_DiffSumSpanRepr input_dim use_proj proj_dim in
    let x' := projected nn_Linear input_dim use_proj proj_dim x in
    shape3 B L D x' ->
    length start_ids = B -> length end_ids = B ->
    Forall2 (in_range L) start_ids end_ids ->
    exists out,
      DiffSumSpanRepr_forward self x start_ids end_ids = Ok out /\
      length out = B /\
      Forall (fun r => length r = (2 * D)%nat) out /\
      forall b s e rows,
        start_ids !! b = Some s -> end_ids !! b = Some e ->
        x' !! b = Some rows ->
        exists vs ve,
          rows !! Z.to_nat s = Some vs /\ rows !! Z.to_nat e = Some ve /\
          out !! b = Some (zip_with ssub ve vs ++ zip_with sadd ve vs)%list.
Proof.
  intros input_dim use_proj proj_dim x start_ids end_ids B L D self x'
    Hx Hs He Hrange.
  pose proof Hx as [HB _].
  pose proof (in_range_starts _ _ _ Hrange) as Hsr.
  pose proof (in_range_ends _ _ _ Hrange) as Her.
  destruct (picked_rows B L D x' start_ids Hx Hs Hsr) as (Hls & Hds & Hps).
  destruct (picked_rows B L D x' end_ids Hx He Her) as (Hle & Hde & Hpe).
  unfold DiffSumSpanRepr_forward, self.
  rewrite apply_proj_instantiate. fold x'. simpl.
  rewrite (index_rows_Ok x' start_ids L), (index_rows_Ok x' end_ids L);
    [| by (try lia; try apply (shape3_rows B L D)) ..].
  simpl. eexists. split; [done |].
  rewrite !(op2_same_shape _ _ _ D) by (done || lia).
  unfold torch.cat_dim1. split; [| split].
  - rewrite !length_zip_with. lia.
  - apply Forall_lookup. intros b r Hr.
    apply lookup_zip_with_Some in Hr as (df & sm & -> & Hdf & Hsm).
    apply lookup_zip_with_Some in Hdf as (ve & vs & -> & Hve & Hvs).
    apply lookup_zip_with_Some in Hsm as (ve' & vs' & -> & Hve' & Hvs').
    rewrite length_app, !length_zip_with.
    rewrite (proj1 (Forall_lookup _ _) Hds _ _ Hvs),
      (proj1 (Forall_lookup _ _) Hds _ _ Hvs'),
      (proj1 (Forall_lookup _ _) Hde _ _ Hve),
      (proj1 (Forall_lookup _ _) Hde _ _ Hve'). lia.
  - intros b s e rows Hbs Hbe Hrows.
    destruct (Hps b s rows Hbs Hrows) as (vs & Hvs & Hpvs).
    destruct (Hpe b e rows Hbe Hrows) as (ve & Hve & Hpve).
    exists vs, ve. repeat split; try done.
    rewrite lookup_zip_with.
    rewrite (lookup_zip_with (zip_with ssub)), (lookup_zip_with (zip_with sadd)).
    by rewrite Hpvs, Hpve.
Qed.

End EndpointFacts.

(** ** The span mask *)

Section MaskFacts.
Context {A : Type} `{Scalar A}.

Lemma get_span_mask_lookup start_ids end_ids max_len b s e :
  start_ids !! b = Some s -> end_ids !! b = Some e ->
  utils.get_span_mask (A:=A) start_ids end_ids max_len !! b
  = Some (mask_row s e max_len).
Proof.
  intros Hs He. unfold utils.get_span_mask.
  rewrite lookup_zip_with, Hs. simpl. by rewrite He.
Qed.

Lemma get_span_mask_length start_ids end_ids max_len :
  length start_ids = length end_ids ->
  length (utils.get_span_mask (A:=A) start_ids end_ids max_len) = length start_ids.
Proof. intros Hlen. unfold utils.get_span_mask. rewrite length_zip_with. lia. Qed.

Lemma mask_row_length s e max_len :
  length (mask_row s e max_len) = Z.to_nat max_len.
Proof. unfold mask_row, torch.arange. by rewrite length_fmap, length_seqZ. Qed.

Lemma mask_row_lookup s e (L p : nat) :
  (p < L)%nat ->
  mask_row s e (Z.of_nat L) !! p
  = Some [if (s <=? Z.of_nat p) && (Z.of_nat p <=? e) then s1 else s0].
Proof.
  intros Hp. unfold mask_row, torch.arange.
  rewrite list_lookup_fmap, lookup_seqZ_lt by lia. done.
Qed.

Lemma fmap_const_on {X Y : Type} (f : X -> Y) (c : Y) (l : list X) :
  Forall (fun a => f a = c) l -> f <$> l = replicate (length l) c.
Proof.
  induction 1 as [|a l Ha _ IH]; [done |].
  rewrite fmap_cons, Ha, IH. done.
Qed.

(** The mask row is a block of zeros, a block of ones covering the span,
    and a block of zeros. *)
Lemma mask_row_blocks s e (L : nat) :
  in_range L s e ->
  mask_row s e (Z.of_nat L)
  = (replicate (Z.to_nat s) [s0]
     ++ replicate (Z.to_nat (e - s + 1)) [s1]
     ++ replicate (Z.to_nat (Z.of_nat L - 1 - e)) [s0])%list.
Proof.
  intros (Hs & Hse & He). unfold mask_row, torch.arange.
  replace (Z.of_nat L) with (s + ((e - s + 1) + (Z.of_nat L - 1 - e))) at 1 by lia.
  rewrite seqZ_app by lia. rewrite seqZ_app by lia.
  rewrite !fmap_app.
  rewrite (fmap_const_on _ [s0] (seqZ 0 s)).
  2:{ apply Forall_forall. intros p Hp.
      apply list_elem_of_lookup in Hp as [k Hk].
      apply lookup_seqZ in Hk as [-> Hk].
      destruct (Z.leb_spec s (0 + Z.of_nat k)); [lia | done]. }
  rewrite (fmap_const_on _ [s1] (seqZ (0 + s) (e - s + 1))).
  2:{ apply Forall_forall. intros p Hp.
      apply list_elem_of_lookup in Hp as [k Hk].
      apply lookup_seqZ in Hk as [-> Hk].
      destruct (Z.leb_spec s (0 + s + Z.of_nat k)); [| lia].
      destruct (Z.leb_spec (0 + s + Z.of_nat k) e); [done | lia]. }
  rewrite (fmap_const_on _ [s0] (seqZ _ (Z.of_nat L - 1 - e))).
  2:{ apply Forall_forall. intros p Hp.
      apply list_elem_of_lookup in Hp as [k Hk].
      apply lookup_seqZ in Hk as [-> Hk].
      destruct (Z.leb_spec (0 + s + (e - s + 1) + Z.of_nat k) e); [lia |].
      by rewrite andb_false_r. }
  by rewrite !length_seqZ.
Qed.

(** C8. For a batch element [b] with [0 <= start <= end < seq_len], row
    [b] of the mask has length [seq_len], holds 1 at exactly the
    positions [p] with [start <= p <= end] and 0 at all others, and is a
    run of [start] zeros, then [end - start + 1] ones, then zeros. *)
Theorem get_span_mask_span `{!ScalarLaws A} :
  forall start_ids end_ids (seq_len b : nat) s e,
    start_ids !! b = Some s -> end_ids !! b = Some e ->
    in_range seq_len s e ->
    exists row,
      utils.get_span_mask (A:=A) start_ids end_ids (Z.of_nat seq_len) !! b
      = Some row /\
      length row = seq_len /\
      (forall p : nat, (p < seq_len)%nat ->
         (row !! p = Some [s1] <-> s <= Z.of_nat p <= e) /\
         (row !! p = Some [s0] <-> ~ (s <= Z.of_nat p <= e))) /\
      row = (replicate (Z.to_nat s) [s0]
             ++ replicate (Z.to_nat (e - s + 1)) [s1]
             ++ replicate (seq_len - 1 - Z.to_nat e) [s0])%list.
Proof.
  intros start_ids end_ids seq_len b s e Hs He Hr.
  exists (mask_row s e (Z.of_nat seq_len)).
  split; [by apply get_span_mask_lookup |].
  split; [by rewrite mask_row_length, Nat2Z.id |].
  split.
  - intros p Hp. rewrite mask_row_lookup by done.
    pose proof s1_neq_s0 as Hne.
    destruct (Z.leb_spec s (Z.of_nat p)), (Z.leb_spec (Z.of_nat p) e); simpl;
      (split; split; intros Hx; try lia; try done;
       try (injection Hx as Hx; congruence)).
  - rewrite mask_row_blocks by done.
    destruct Hr as (? & ? & ?).
    do 3 f_equal. lia.
Qed.

End MaskFacts.

(** ** Pooling over the span *)

Section BlockFacts.
Context {A : Type} `{Scalar A}.

Lemma shape_1_shape3 (B L D : nat) (x : list (list (list A))) b rows :
  shape3 B L D x -> x !! b = Some rows -> torch.shape_1 x = Z.of_nat L.
Proof.
  intros [_ Hx] Hb. destruct x as [|r0 x]; [done |].
  simpl. apply Forall_cons in Hx as [[-> _] _]. done.
Qed.

Lemma op3_lookup (f : A -> A -> A) (x M : list (list (list A))) b rows mrow :
  length x = length M -> x !! b = Some rows -> M !! b = Some mrow ->
  torch.op3 f x M !! b
  = Some (torch.broadcast (torch.broadcast f) rows mrow).
Proof.
  intros Hlen Hx HM. unfold torch.op3.
  rewrite broadcast_zip by done.
  rewrite lookup_zip_with, Hx. simpl. by rewrite HM.
Qed.

(** The rows of a batch element split at the span boundaries. *)
Lemma rows_split (rows : list (list A)) (L : nat) s e :
  length rows = L -> in_range L s e ->
  rows = (take (Z.to_nat s) rows ++ span_rows rows s e
          ++ drop (Z.to_nat (e + 1)) rows)%list /\
  length (take (Z.to_nat s) rows) = Z.to_nat s /\
  length (span_rows rows s e) = Z.to_nat (e - s + 1) /\
  length (drop (Z.to_nat (e + 1)) rows) = Z.to_nat (Z.of_nat L - 1 - e).
Proof.
  intros HL (Hs & Hse & He). unfold span_rows.
  split; [| split; [| split]].
  - rewrite <- (take_drop (Z.to_nat s) rows) at 1. f_equal.
    rewrite <- (take_drop (Z.to_nat (e - s + 1)) (drop (Z.to_nat s) rows)) at 1.
    f_equal. rewrite drop_drop. f_equal. lia.
  - rewrite length_take. lia.
  - rewrite length_take, length_drop. lia.
  - rewrite length_drop. lia.
Qed.

Lemma zip_with_blocks {X Y Z : Type} (g : X -> Y -> Z)
    (pre mid suf : list X) (c0 c1 : Y) :
  zip_with g (pre ++ mid ++ suf)
    (replicate (length pre) c0 ++ replicate (length mid) c1
     ++ replicate (length suf) c0)
  = (((fun r => g r c0) <$> pre) ++ ((fun r => g r c1) <$> mid)
     ++ ((fun r => g r c0) <$> suf))%list.
Proof.
  rewrite zip_with_app by (by rewrite length_replicate).
  rewrite zip_with_app by (by rewrite length_replicate).
  by rewrite !zip_with_replicate_r_eq.
Qed.

Lemma span_rows_shape (rows : list (list A)) (D : nat) s e :
  Forall (fun r => length r = D) rows ->
  Forall (fun r => length r = D) (span_rows rows s e).
Proof. intros HD. unfold span_rows. by apply Forall_take, Forall_drop. Qed.

End BlockFacts.

Section SumFacts.
Context {A : Type} `{ScalarLaws A}.

Local Abbreviation zeros D := (replicate D s0).

Lemma vadd_zeros_l (D : nat) (v : list A) :
  length v = D -> zip_with sadd (zeros D) v = v.
Proof.
  revert D. induction v as [|a v IH]; intros D <-; [done |].
  simpl. by rewrite sadd_0_l, IH.
Qed.

Lemma vadd_zeros_r (D : nat) (v : list A) :
  length v = D -> zip_with sadd v (zeros D) = v.
Proof.
  revert D. induction v as [|a v IH]; intros D <-; [done |].
  simpl. by rewrite sadd_0_r, IH.
Qed.

Lemma foldr_vadd_length (D : nat) (rows : list (list A)) :
  Forall (fun r => length r = D) rows ->
  length (foldr (zip_with sadd) (zeros D) rows) = D.
Proof.
  induction 1 as [|r rows Hr _ IH]; simpl; [by rewrite length_replicate |].
  rewrite length_zip_with. lia.
Qed.

Lemma foldr_vadd_zero_rows (D n : nat) (acc : list A) :
  length acc = D ->
  foldr (zip_with sadd) acc (replicate n (zeros D)) = acc.
Proof.
  intros Hacc. induction n as [|n IH]; [done |].
  simpl. rewrite IH. by apply vadd_zeros_l.
Qed.

(** Rows of zeros before and after do not change the sum of the rows. *)
Lemma sum_rows_padded (D n t : nat) (mid : list (list A)) :
  Forall (fun r => length r = D) mid -> mid <> [] ->
  torch.sum_rows (replicate n (zeros D) ++ mid ++ replicate t (zeros D))
  = torch.sum_rows mid.
Proof.
  intros HD Hne.
  assert (Hsum : foldr (zip_with sadd) (zeros D)
                   (replicate n (zeros D) ++ mid ++ replicate t (zeros D))
                 = foldr (zip_with sadd) (zeros D) mid).
  { rewrite !foldr_app.
    rewrite (foldr_vadd_zero_rows D t) by (by rewrite length_replicate).
    apply foldr_vadd_zero_rows. by apply foldr_vadd_length. }
  destruct mid as [|r mid]; [done |].
  apply Forall_cons in HD as [Hr HD'].
  unfold torch.sum_rows at 2. rewrite Hr, <- Hsum.
  destruct n as [|n]; simpl; [by rewrite Hr |].
  by rewrite length_replicate.
Qed.

Lemma masked_rows_zero (D : nat) (rows : list (list A)) :
  Forall (fun r => length r = D) rows ->
  (fun r => torch.broadcast smul r [s0]) <$> rows
  = replicate (length rows) (zeros D).
Proof.
  intros HD. apply fmap_const_on.
  eapply Forall_impl; [done |]. intros r Hr. simpl.
  rewrite broadcast_singleton_r.
  rewrite <- Hr. apply fmap_const_on.
  apply Forall_forall. intros v _. apply smul_0_r.
Qed.

Lemma masked_rows_one (rows : list (list A)) :
  (fun r => torch.broadcast smul r [s1]) <$> rows = rows.
Proof.
  induction rows as [|r rows IH]; [done |].
  rewrite fmap_cons, IH. f_equal.
  rewrite broadcast_singleton_r.
  induction r as [|v r IHr]; [done |].
  rewrite fmap_cons, IHr. by rewrite smul_1_r.
Qed.

(** Multiplying by the mask and adding up all rows adds up the rows of
    the span. *)
Lemma masked_sum (L D : nat) (rows : list (list A)) s e :
  length rows = L -> Forall (fun r => length r = D) rows ->
  in_range L s e ->
  torch.sum_rows
    (torch.broadcast (torch.broadcast smul) rows (mask_row s e (Z.of_nat L)))
  = torch.sum_rows (span_rows rows s e).
Proof.
  intros HL HD Hr.
  rewrite broadcast_zip by (by rewrite mask_row_length, Nat2Z.id).
  rewrite mask_row_blocks by done.
  destruct (rows_split rows L s e HL Hr) as (Hsplit & Hl1 & Hl2 & Hl3).
  rewrite <- Hl1, <- Hl2, <- Hl3. rewrite Hsplit at 1.
  rewrite zip_with_blocks.
  rewrite masked_rows_one.
  rewrite !(masked_rows_zero D)
    by (by apply Forall_take || by apply Forall_drop).
  apply sum_rows_padded; [by apply span_rows_shape |].
  intros Hnil. rewrite Hnil in Hl2. destruct Hr as (? & ? & ?).
  simpl in Hl2. lia.
Qed.

End SumFacts.

Section MeanFacts.
Context {A : Type} `{ScalarLaws A}.
Variable nn_Linear : Z -> Z -> torch.Linear A.

Lemma span_lengths_lookup (start_ids end_ids : list Z) b s e :
  length start_ids = length end_ids ->
  start_ids !! b = Some s -> end_ids !! b = Some e ->
  torch.float (A:=A)
    (torch.unsqueeze_1
       ((fun v => v + 1) <$> torch.broadcast Z.sub end_ids start_ids)) !! b
  = Some [of_Z (e - s + 1)].
Proof.
  intros Hlen Hs He. unfold torch.float, torch.unsqueeze_1.
  rewrite broadcast_zip by done.
  rewrite !list_lookup_fmap, lookup_zip_with, He. simpl. by rewrite Hs.
Qed.

Lemma vdiv_one (r : list A) : (fun v => sdiv v s1) <$> r = r.
Proof.
  induction r as [|v r IH]; [done |].
  by rewrite fmap_cons, sdiv_1_r, IH.
Qed.

Lemma sum_rows_single (r : list A) : torch.sum_rows [r] = r.
Proof. simpl. by apply vadd_zeros_r. Qed.

Lemma span_rows_single (rows : list (list A)) s r :
  0 <= s -> rows !! Z.to_nat s = Some r -> span_rows rows s s = [r].
Proof.
  intros Hs Hr. unfold span_rows.
  replace (s - s + 1) with 1 by lia.
  apply list_eq. intros [|k].
  - rewrite lookup_take_lt by (simpl; lia).
    rewrite lookup_drop, Nat.add_0_r. done.
  - by rewrite lookup_take_ge by (simpl; lia).
Qed.

(** C4. On a [B, L, D] (optionally projected) input with in-range span
    boundaries, [MeanSpanRepr.forward] returns for every batch element
    the sum of the token vectors at the positions [start..end] divided
    by [end - start + 1]; on a span of length 1 this is the token vector
    at that position itself. *)
Theorem MeanSpanRepr_forward_mean :
  forall input_dim use_proj proj_dim x start_ids end_ids (B L D : nat),
    let self := instantiate nn_Linear cls_MeanSpanRepr input_dim use_proj proj_dim in
    let x' := projected nn_Linear input_dim use_proj proj_dim x in
    shape3 B L D x' ->
    length start_ids = B -> length end_ids = B ->
    Forall2 (in_range L) start_ids end_ids ->
    exists out,
      MeanSpanRepr_forward self x start_ids end_ids = Ok out /\
      length out = B /\
      forall b s e rows,
        start_ids !! b = Some s -> end_ids !! b = Some e ->
        x' !! b = Some rows ->
        out !! b
        = Some ((fun v => sdiv v (of_Z (e - s + 1)))
                  <$> torch.sum_rows (span_rows rows s e)) /\
        (s = e -> forall r, rows !! Z.to_nat s = Some r -> out !! b = Some r).
Proof.
  intros input_dim use_proj proj_dim x start_ids end_ids B L D self x'
    Hx Hs He Hrange.
  pose proof Hx as [HB _].
  unfold MeanSpanRepr_forward, self.
  rewrite apply_proj_instantiate. fold x'. simpl.
  eexists. split; [done |].
  set (M := utils.get_span_mask start_ids end_ids (torch.shape_1 x')).
  set (F := torch.float _).
  assert (HM : length M = B)
    by (unfold M; rewrite get_span_mask_length; lia).
  assert (HS : length (torch.sum_dim1 (torch.op3 smul x' M)) = B).
  { unfold torch.sum_dim1, torch.op3. rewrite length_fmap.
    rewrite broadcast_zip, length_zip_with by lia. lia. }
  assert (HF : length F = B).
  { unfold F, torch.float, torch.unsqueeze_1.
    rewrite !length_fmap, broadcast_zip, length_zip_with by lia. lia. }
  split.
  { unfold torch.op2. rewrite broadcast_zip, length_zip_with by lia. lia. }
  intros b s e rows Hbs Hbe Hrows.
  pose proof (Forall2_lookup_lr _ _ _ _ _ _ Hrange Hbs Hbe) as Hr.
  destruct (shape3_lookup _ _ _ _ _ _ Hx Hrows) as [HL HD].
  assert (Hout :
    torch.op2 sdiv (torch.sum_dim1 (torch.op3 smul x' M)) F !! b
    = Some ((fun v => sdiv v (of_Z (e - s + 1)))
              <$> torch.sum_rows (span_rows rows s e))).
  { unfold torch.op2. rewrite broadcast_zip by lia.
    rewrite lookup_zip_with. unfold torch.sum_dim1.
    rewrite list_lookup_fmap.
    rewrite (op3_lookup smul x' M b rows (mask_row s e (Z.of_nat L))); [| lia | done |].
    2:{ unfold M. rewrite (shape_1_shape3 B L D x' b rows) by done.
        by apply get_span_mask_lookup. }
    simpl. unfold F. rewrite (span_lengths_lookup _ _ b s e) by (done || lia).
    simpl. rewrite broadcast_singleton_r.
    by rewrite (masked_sum L D). }
  split; [done |].
  intros <- r Hrow. rewrite Hout. f_equal.
  destruct Hr as (Hs0 & _ & _).
  rewrite (span_rows_single rows s r) by done.
  rewrite sum_rows_single.
  replace (s - s + 1) with 1 by lia. rewrite of_Z_1.
  apply vdiv_one.
Qed.

End MeanFacts.

Section MaxFacts.
Context {A : Type} `{ScalarLaws A}.
Variable nn_Linear : Z -> Z -> torch.Linear A.

Lemma smax_cases (x y : A) :
  (smax x y = y /\ sleb x y = true) \/ (smax x y = x /\ sleb y x = true).
Proof.
  unfold smax. destruct (sleb x y) eqn:Hxy; [by left |].
  right. split; [done |].
  destruct (sleb_total x y) as [Hc | Hc]; [congruence | done].
Qed.

(** The running channel-wise maximum is, in every channel, an upper
    bound of the rows seen and the value of one of them. *)
Lemma foldl_vmax (D : nat) (r : list A) (rs : list (list A)) :
  length r = D -> Forall (fun row => length row = D) rs ->
  length (foldl (zip_with smax) r rs) = D /\
  forall d m, foldl (zip_with smax) r rs !! d = Some m ->
    (exists p row, (r :: rs) !! p = Some row /\ row !! d = Some m) /\
    (forall p row v, (r :: rs) !! p = Some row -> row !! d = Some v ->
                     sleb v m = true).
Proof.
  intros Hr. induction rs as [|x rs IH] using rev_ind; intros Hrs.
  - simpl. split; [done |]. intros d m Hm. split.
    + exists 0%nat, r. done.
    + intros [|p] row v Hrow Hv; [| done].
      injection Hrow as <-. rewrite Hm in Hv. injection Hv as <-.
      apply sleb_refl.
  - apply Forall_app in Hrs as [Hrs Hx].
    apply Forall_inv in Hx.
    destruct (IH Hrs) as [Hlen Hmax].
    rewrite foldl_app. simpl. split.
    { rewrite length_zip_with. lia. }
    intros d m Hm.
    apply lookup_zip_with_Some in Hm as (a & v & -> & Ha & Hv).
    destruct (Hmax d a Ha) as [(p & row & Hp & Hrow) Hub].
    destruct (smax_cases a v) as [[-> Hle] | [-> Hle]].
    + split.
      * exists (S (length rs)), x. split; [| done].
        change (r :: rs ++ [x])%list with ((r :: rs) ++ [x])%list.
        rewrite lookup_app_r by (simpl; lia).
        replace (S (length rs) - length (r :: rs))%nat with 0%nat
          by (simpl; lia). done.
      * intros q rowq w Hq Hw.
        change (r :: rs ++ [x])%list with ((r :: rs) ++ [x])%list in Hq.
        apply lookup_app_Some in Hq as [Hq | [_ Hq]].
        -- eapply sleb_trans; [by eapply Hub | done].
        -- apply list_lookup_singleton_Some in Hq as [_ <-].
           rewrite Hv in Hw. injection Hw as <-. apply sleb_refl.
    + split.
      * exists p, row. split; [| done].
        change (r :: rs ++ [x])%list with ((r :: rs) ++ [x])%list.
        by apply lookup_app_l_Some.
      * intros q rowq w Hq Hw.
        change (r :: rs ++ [x])%list with ((r :: rs) ++ [x])%list in Hq.
        apply lookup_app_Some in Hq as [Hq | [_ Hq]].
        -- by eapply Hub.
        -- apply list_lookup_singleton_Some in Hq as [_ <-].
           rewrite Hv in Hw. by injection Hw as <-.
Qed.

(** The penalised row at position [p]: the token vector itself inside
    the span, [-1e10] in every channel outside. *)
Lemma penalised_row (L : nat) (rows : list (list A)) s e p r :
  length rows = L -> rows !! p = Some r ->
  let mrow := mask_row s e (Z.of_nat L) in
  torch.broadcast (torch.broadcast ssub)
    (torch.broadcast (torch.broadcast smul) rows mrow)
    ((fun r : list A => smul big <$> r)
       <$> ((fun r : list A => ssub s1 <$> r) <$> mrow)) !! p
  = Some (if (s <=? Z.of_nat p) && (Z.of_nat p <=? e)
          then r else (fun _ => sopp big) <$> r).
Proof.
  intros HL Hr mrow. apply lookup_lt_Some in Hr as Hp.
  assert (Hm : length mrow = L)
    by (unfold mrow; by rewrite mask_row_length, Nat2Z.id).
  rewrite (broadcast_zip _ rows mrow) by lia.
  rewrite broadcast_zip by (rewrite !length_fmap, length_zip_with; lia).
  rewrite !lookup_zip_with, Hr. simpl.
  rewrite !list_lookup_fmap. unfold mrow.
  rewrite mask_row_lookup by lia. simpl.
  rewrite !broadcast_singleton_r. f_equal.
  rewrite <- list_fmap_compose.
  destruct ((s <=? Z.of_nat p) && (Z.of_nat p <=? e)).
  - rewrite <- (list_fmap_id r) at 2. apply list_fmap_ext. intros _ v _. simpl.
    by rewrite smul_1_r, ssub_diag, smul_0_r, ssub_0_r.
  - apply list_fmap_ext. intros _ v _. simpl.
    by rewrite smul_0_r, ssub_0_r, smul_1_r, ssub_0_l.
Qed.

(** C5, as the code has it.  On a [B, L, D] (optionally projected) input
    with in-range span boundaries, [MaxSpanRepr.forward] returns a
    [B, D] tensor; where [m] is the maximum of channel [d] over the
    positions [start..end] of batch element [b], the output at [b, d] is
    [m] when the span covers the whole sequence and the larger of [m]
    and [-1e10] otherwise.  Hence it is the span maximum whenever that
    maximum is at least [-1e10]. *)
Theorem MaxSpanRepr_forward_max :
  forall input_dim use_proj proj_dim x start_ids end_ids (B L D : nat),
    let self := instantiate nn_Linear cls_MaxSpanRepr input_dim use_proj proj_dim in
    let x' := projected nn_Linear input_dim use_proj proj_dim x in
    shape3 B L D x' ->
    length start_ids = B -> length end_ids = B ->
    Forall2 (in_range L) start_ids end_ids ->
    exists out,
      MaxSpanRepr_forward self x start_ids end_ids = Ok out /\
      length out = B /\
      Forall (fun r => length r = D) out /\
      forall b s e rows d m,
        start_ids !! b = Some s -> end_ids !! b = Some e ->
        x' !! b = Some rows ->
        is_span_max rows s e d m ->
        exists row,
          out !! b = Some row /\
          row !! d = Some (if (s =? 0) && (e =? Z.of_nat L - 1)
                           then m else smax (sopp big) m) /\
          (sleb (sopp big) m = true -> row !! d = Some m).
Proof.
  intros input_dim use_proj proj_dim x start_ids end_ids B L D self x'
    Hx Hs He Hrange.
  pose proof Hx as [HB _].
  unfold MaxSpanRepr_forward, self.
  rewrite apply_proj_instantiate. fold x'. simpl.
  set (M := utils.get_span_mask start_ids end_ids (torch.shape_1 x')).
  set (tmp := torch.op3 ssub _ _).
  assert (HM : length M = B)
    by (unfold M; rewrite get_span_mask_length; lia).
  assert (Hmul : length (torch.op3 smul x' M) = B).
  { unfold torch.op3. rewrite broadcast_zip, length_zip_with by lia. lia. }
  assert (Htmp_len : length tmp = B).
  { unfold tmp, torch.op3 at 1.
    rewrite broadcast_zip, length_zip_with;
      unfold torch.map3; rewrite ?length_fmap; lia. }
  (* every batch element of [tmp], row by row *)
  assert (Htmp : forall b s e rows,
    start_ids !! b = Some s -> end_ids !! b = Some e -> x' !! b = Some rows ->
    exists tb, tmp !! b = Some tb /\ length tb = L /\ (0 < L)%nat /\
      forall p r, rows !! p = Some r ->
        tb !! p = Some (if (s <=? Z.of_nat p) && (Z.of_nat p <=? e)
                        then r else (fun _ => sopp big) <$> r)).
  { intros b s e rows Hbs Hbe Hrows.
    pose proof (Forall2_lookup_lr _ _ _ _ _ _ Hrange Hbs Hbe) as (? & ? & ?).
    destruct (shape3_lookup _ _ _ _ _ _ Hx Hrows) as [HL HD].
    assert (HMb : M !! b = Some (mask_row s e (Z.of_nat L))).
    { unfold M. rewrite (shape_1_shape3 B L D x' b rows) by done.
      by apply get_span_mask_lookup. }
    exists (torch.broadcast (torch.broadcast ssub)
              (torch.broadcast (torch.broadcast smul) rows
                 (mask_row s e (Z.of_nat L)))
              ((fun r : list A => smul big <$> r)
                 <$> ((fun r : list A => ssub s1 <$> r)
                        <$> mask_row s e (Z.of_nat L)))).
    split; [| split; [| split]].
    - unfold tmp. eapply op3_lookup.
      + unfold torch.map3. rewrite !length_fmap. lia.
      + by apply (op3_lookup smul x' M b rows); [lia | |].
      + unfold torch.map3. rewrite !list_lookup_fmap, HMb. done.
    - assert (Hmr : length (mask_row (A:=A) s e (Z.of_nat L)) = L)
        by (by rewrite mask_row_length, Nat2Z.id).
      rewrite (broadcast_zip _ rows) by lia.
      rewrite broadcast_zip by (rewrite length_zip_with, !length_fmap; lia).
      rewrite !length_zip_with, !length_fmap. lia.
    - lia.
    - intros p r Hr. by apply penalised_row. }
  set (g := fun rows : list (list A) =>
              match rows with [] => [] | r :: rs => foldl (zip_with smax) r rs end).
  assert (Hmax : torch.max_dim1 tmp = Ok (g <$> tmp)).
  { apply mapM_Ok. intros tb Htb.
    apply list_elem_of_lookup in Htb as [b Hb].
    apply lookup_lt_Some in Hb as Hlt.
    destruct (lookup_lt_is_Some_2 start_ids b) as [s Hbs]; [lia |].
    destruct (lookup_lt_is_Some_2 end_ids b) as [e Hbe]; [lia |].
    destruct (lookup_lt_is_Some_2 x' b) as [rows Hrows]; [lia |].
    destruct (Htmp b s e rows Hbs Hbe Hrows) as (tb' & Hb' & Hlen & Hpos & _).
    rewrite Hb in Hb'. injection Hb' as <-.
    destruct tb; [simpl in Hlen; lia | done]. }
  rewrite Hmax. simpl. eexists. split; [done |].
  (* shape of every batch element of [tmp] *)
  assert (Hshape : forall b tb, tmp !! b = Some tb ->
            exists r rs, tb = r :: rs /\ length r = D /\
                         Forall (fun row => length row = D) rs).
  { intros b tb Hb. apply lookup_lt_Some in Hb as Hlt.
    destruct (lookup_lt_is_Some_2 start_ids b) as [s Hbs]; [lia |].
    destruct (lookup_lt_is_Some_2 end_ids b) as [e Hbe]; [lia |].
    destruct (lookup_lt_is_Some_2 x' b) as [rows Hrows]; [lia |].
    destruct (Htmp b s e rows Hbs Hbe Hrows) as (tb' & Hb' & Hlen & Hpos & Hrow).
    rewrite Hb in Hb'. injection Hb' as <-.
    destruct (shape3_lookup _ _ _ _ _ _ Hx Hrows) as [HL HD].
    assert (Hall : Forall (fun row => length row = D) tb).
    { apply Forall_lookup. intros p row Hp.
      destruct (lookup_lt_is_Some_2 rows p) as [r Hr];
        [apply lookup_lt_Some in Hp; lia |].
      rewrite (Hrow p r Hr) in Hp. injection Hp as <-.
      pose proof (proj1 (Forall_lookup _ _) HD _ _ Hr) as Hlr. simpl in Hlr.
      destruct (_ && _); [done | by rewrite length_fmap]. }
    destruct tb as [|r rs]; [simpl in Hlen; lia |].
    apply Forall_cons in Hall as [? ?]. by exists r, rs. }
  split; [by rewrite length_fmap |].
  split.
  { apply Forall_lookup. intros b row Hrow.
    apply list_lookup_fmap_Some in Hrow as (tb & -> & Hb).
    destruct (Hshape b tb Hb) as (r & rs & -> & Hr & Hrs).
    simpl. by apply (foldl_vmax D r rs). }
  intros b s e rows d m Hbs Hbe Hrows [(p0 & r0 & Hp0 & Hr0 & Hm) Hub].
  pose proof (Forall2_lookup_lr _ _ _ _ _ _ Hrange Hbs Hbe) as (Hs0 & Hse & HeL).
  destruct (shape3_lookup _ _ _ _ _ _ Hx Hrows) as [HL HD].
  destruct (Htmp b s e rows Hbs Hbe Hrows) as (tb & Hb & Hlen & Hpos & Hrow).
  destruct (Hshape b tb Hb) as (r & rs & -> & Hr & Hrs).
  destruct (foldl_vmax D r rs Hr Hrs) as [Hlen' Hmx].
  exists (foldl (zip_with smax) r rs).
  split; [by rewrite list_lookup_fmap, Hb |].
  assert (Hd : (d < D)%nat).
  { apply lookup_lt_Some in Hm.
    by rewrite (proj1 (Forall_lookup _ _) HD _ _ Hr0) in Hm. }
  destruct (lookup_lt_is_Some_2 (foldl (zip_with smax) r rs) d) as [m' Hm'];
    [lia |].
  destruct (Hmx d m' Hm') as [(p & row & Hp & Hrd) Hub'].
  (* the span maximum is below the output *)
  assert (Hle : sleb m m' = true).
  { apply (Hub' (Z.to_nat p0) r0); [| done].
    rewrite (Hrow _ r0 Hr0), Z2Nat.id by lia.
    destruct (Z.leb_spec s p0); [| lia].
    destruct (Z.leb_spec p0 e); [done | lia]. }
  destruct (lookup_lt_is_Some_2 rows p) as [rp Hrp];
    [apply lookup_lt_Some in Hp; lia |].
  rewrite (Hrow p rp Hrp) in Hp.
  destruct ((s <=? Z.of_nat p) && (Z.of_nat p <=? e)) eqn:Hin.
  - (* attained inside the span *)
    injection Hp as <-.
    apply andb_true_iff in Hin as [Hin1 Hin2].
    apply Z.leb_le in Hin1, Hin2.
    assert (Heq : m' = m).
    { apply sleb_antisym; [| done].
      apply (Hub (Z.of_nat p) rp); [lia | by rewrite Nat2Z.id | done]. }
    subst m'. split; [| done].
    destruct ((s =? 0) && (e =? Z.of_nat L - 1)) eqn:Hcov; [done |].
    (* some position lies outside the span and holds [-1e10] *)
    assert (Hout : exists q rq, rows !! q = Some rq /\
              (s <=? Z.of_nat q) && (Z.of_nat q <=? e) = false).
    { apply andb_false_iff in Hcov as [Hc | Hc].
      - apply Z.eqb_neq in Hc.
        destruct (lookup_lt_is_Some_2 rows 0) as [rq Hrq]; [lia |].
        exists 0%nat, rq. split; [done |].
        destruct (Z.leb_spec s (Z.of_nat 0)); [lia | done].
      - apply Z.eqb_neq in Hc.
        destruct (lookup_lt_is_Some_2 rows (L - 1)) as [rq Hrq]; [lia |].
        exists (L - 1)%nat, rq. split; [done |].
        destruct (Z.leb_spec (Z.of_nat (L - 1)) e); [lia |].
        by rewrite andb_false_r. }
    destruct Hout as (q & rq & Hrq & Hq).
    pose proof (Hrow q rq Hrq) as Htq. rewrite Hq in Htq.
    assert (Hlq : length rq = D)
      by exact (proj1 (Forall_lookup _ _) HD _ _ Hrq).
    destruct (lookup_lt_is_Some_2 rq d) as [w Hw]; [lia |].
    assert (Hpen : sleb (sopp big) m = true).
    { apply (Hub' q ((fun _ => sopp big) <$> rq)); [done |].
      by rewrite list_lookup_fmap, Hw. }
    unfold smax. by rewrite Hpen.
  - (* attained outside the span: the output is the penalty *)
    injection Hp as <-.
    rewrite list_lookup_fmap in Hrd.
    destruct (rp !! d) as [w|]; [| done]. injection Hrd as <-.
    assert (Hcov : (s =? 0) && (e =? Z.of_nat L - 1) = false).
    { apply lookup_lt_Some in Hrp.
      apply andb_false_iff in Hin as [Hin | Hin];
        apply Z.leb_gt in Hin; apply andb_false_iff.
      - left. apply Z.eqb_neq. lia.
      - right. apply Z.eqb_neq. lia. }
    rewrite Hcov, Hm'. split.
    + unfold smax. destruct (sleb (sopp big) m) eqn:Hpm; [| done].
      f_equal. by apply sleb_antisym.
    + intros Hpm. f_equal. by apply sleb_antisym.
Qed.

End MaxFacts.

(** ** Attention pooling *)

Section AttnStructure.
Context {A : Type} `{Scalar A} `{ScalarExp A}.
Variable nn_Linear : Z -> Z -> torch.Linear A.

Lemma instantiate_attention_params input_dim use_proj proj_dim :
  getattr (instantiate nn_Linear cls_AttnSpanRepr input_dim use_proj proj_dim)
    "attention_params"
  = Ok (VModule (nn_Linear (if use_proj then proj_dim else input_dim) 1)).
Proof.
  unfold instantiate, AttnSpanRepr__init__, getattr, setattr. simpl.
  by rewrite lookup_insert_eq.
Qed.

Lemma sum_rows_singletons (vals : list A) :
  vals <> [] ->
  torch.sum_rows ((fun v => [v]) <$> vals) = [foldr sadd s0 vals].
Proof.
  intros Hne.
  assert (Hf : foldr (zip_with sadd) [s0] ((fun v => [v]) <$> vals)
               = [foldr sadd s0 vals]).
  { clear Hne. induction vals as [|v vals IH]; [done |].
    rewrite fmap_cons. simpl. by rewrite IH. }
  destruct vals as [|v vals]; [done |]. exact Hf.
Qed.

Lemma softmax_rows_singletons (lg : list A) :
  torch.softmax_rows ((fun v => [v]) <$> lg) = (fun v => [v]) <$> softmax_list lg.
Proof.
  destruct (decide (lg = [])) as [-> | Hne]; [done |].
  unfold torch.softmax_rows, softmax_list.
  rewrite <- !list_fmap_compose.
  assert (Hs : torch.sum_rows
                 ((fun r : list A => sexp <$> r) ∘ (fun v => [v]) <$> lg)
               = [foldr sadd s0 (sexp <$> lg)]).
  { rewrite <- sum_rows_singletons by (by destruct lg).
    by rewrite <- list_fmap_compose. }
  rewrite Hs. by apply list_fmap_ext.
Qed.

(** The logits of one batch element, as the code computes them. *)
Lemma attn_logits_rows (l : torch.Linear A) (w : list A) (c : A)
    (rows : list (list A)) (L : nat) s e :
  torch.weight l = [w] -> torch.bias l = [c] -> length rows = L ->
  torch.broadcast (torch.broadcast sadd)
    (torch.linear_row l <$> rows)
    ((fun r : list A => (fun v => smul v (sopp big)) <$> r)
       <$> ((fun r : list A => ssub s1 <$> r) <$> mask_row s e (Z.of_nat L)))
  = (fun v => [v]) <$> attn_logits w c s e rows.
Proof.
  intros Hw Hc HL.
  rewrite broadcast_zip by (by rewrite !length_fmap, mask_row_length, Nat2Z.id).
  apply list_eq. intros p.
  unfold attn_logits.
  rewrite list_lookup_fmap, !lookup_zip_with, !list_lookup_fmap.
  destruct (rows !! p) as [r|] eqn:Hr; simpl.
  - apply lookup_lt_Some in Hr as Hp.
    rewrite mask_row_lookup by lia.
    rewrite lookup_seqZ_lt by lia. simpl.
    unfold torch.linear_row. by rewrite Hw, Hc.
  - apply lookup_ge_None in Hr.
    by rewrite lookup_seqZ_ge by lia.
Qed.

(** The weights and the output of [AttnSpanRepr.forward], batch element
    by batch element. *)
Lemma AttnSpanRepr_forward_rows input_dim use_proj proj_dim x
    start_ids end_ids (B L D : nat) (w : list A) (c : A) :
  let self := instantiate nn_Linear cls_AttnSpanRepr input_dim use_proj proj_dim in
  let x' := projected nn_Linear input_dim use_proj proj_dim x in
  let l := nn_Linear (if use_proj then proj_dim else input_dim) 1 in
  torch.weight l = [w] -> torch.bias l = [c] ->
  shape3 B L D x' ->
  length start_ids = B -> length end_ids = B ->
  exists W out,
    AttnSpanRepr_attention_wts self x' start_ids end_ids = Ok W /\
    AttnSpanRepr_forward self x start_ids end_ids = Ok out /\
    length W = B /\ length out = B /\
    forall b s e rows,
      start_ids !! b = Some s -> end_ids !! b = Some e ->
      x' !! b = Some rows ->
      let wts := softmax_list (attn_logits w c s e rows) in
      W !! b = Some ((fun v => [v]) <$> wts) /\
      out !! b
      = Some (torch.sum_rows (zip_with (fun wv r => smul wv <$> r) wts rows)).
Proof.
  intros self x' l Hw Hc Hx Hs He.
  pose proof Hx as [HB _].
  unfold AttnSpanRepr_forward, AttnSpanRepr_attention_wts, self.
  rewrite apply_proj_instantiate, instantiate_attention_params.
  fold x' l. simpl.
  set (M := utils.get_span_mask start_ids end_ids (torch.shape_1 x')).
  set (W := torch.softmax_dim1 _).
  assert (HM : length M = B)
    by (unfold M; rewrite get_span_mask_length; lia).
  assert (HW : length W = B).
  { unfold W, torch.softmax_dim1, torch.op3, torch.map3, torch.Linear_forward.
    rewrite length_fmap, broadcast_zip, length_zip_with;
      rewrite !length_fmap; lia. }
  assert (HWb : forall b s e rows,
    start_ids !! b = Some s -> end_ids !! b = Some e -> x' !! b = Some rows ->
    W !! b = Some ((fun v => [v]) <$> softmax_list (attn_logits w c s e rows))).
  { intros b s e rows Hbs Hbe Hrows.
    destruct (shape3_lookup _ _ _ _ _ _ Hx Hrows) as [HL HD].
    assert (HMb : M !! b = Some (mask_row s e (Z.of_nat L))).
    { unfold M. rewrite (shape_1_shape3 B L D x' b rows) by done.
      by apply get_span_mask_lookup. }
    unfold W, torch.softmax_dim1. rewrite list_lookup_fmap.
    erewrite op3_lookup.
    - simpl. f_equal. rewrite <- softmax_rows_singletons. f_equal.
      by apply attn_logits_rows.
    - unfold torch.map3, torch.Linear_forward. rewrite !length_fmap. lia.
    - unfold torch.Linear_forward. by rewrite list_lookup_fmap, Hrows.
    - unfold torch.map3. by rewrite !list_lookup_fmap, HMb. }
  exists W. eexists. split; [done |]. split; [done |].
  split; [done |]. split.
  { unfold torch.sum_dim1, torch.op3.
    rewrite length_fmap, broadcast_zip, length_zip_with; lia. }
  intros b s e rows Hbs Hbe Hrows.
  set (wts := softmax_list (attn_logits w c s e rows)).
  split; [by apply HWb |].
  destruct (shape3_lookup _ _ _ _ _ _ Hx Hrows) as [HL HD].
  unfold torch.sum_dim1. rewrite list_lookup_fmap.
  rewrite (op3_lookup smul W x' b ((fun v => [v]) <$> wts) rows);
    [| lia | by apply HWb | done].
  simpl. do 2 f_equal.
  assert (Hlw : length wts = L).
  { unfold wts, softmax_list, attn_logits.
    rewrite length_fmap, length_zip_with, length_seqZ. lia. }
  rewrite broadcast_zip by (rewrite length_fmap; lia).
  by rewrite zip_with_fmap_l.
Qed.

End AttnStructure.

Section AttnReal.
Local Open Scope R_scope.

Lemma exp_sum_pos (lg : list R) :
  lg <> [] -> 0 < foldr Rplus 0 (exp <$> lg).
Proof.
  intros Hne. destruct lg as [|v lg]; [done |]. clear Hne.
  rewrite fmap_cons. simpl.
  assert (Hnn : 0 <= foldr Rplus 0 (exp <$> lg)).
  { induction lg as [|u lg IH]; [simpl; lra |].
    rewrite fmap_cons. simpl. pose proof (exp_pos u). lra. }
  pose proof (exp_pos v). lra.
Qed.

Lemma exp_sum_ge (lg : list R) (q : nat) (v : R) :
  lg !! q = Some v -> exp v <= foldr Rplus 0 (exp <$> lg).
Proof.
  revert q. induction lg as [|u lg IH]; intros q Hq; [done |].
  rewrite fmap_cons. simpl.
  destruct q as [|q]; simpl in Hq.
  - injection Hq as ->.
    assert (0 <= foldr Rplus 0 (exp <$> lg)).
    { destruct (decide (lg = [])) as [-> | Hne]; [simpl; lra |].
      pose proof (exp_sum_pos lg Hne). lra. }
    lra.
  - pose proof (IH q Hq). pose proof (exp_pos u). lra.
Qed.

Lemma sum_scaled (S : R) (vals : list R) :
  foldr Rplus 0 ((fun v => v / S) <$> vals) = foldr Rplus 0 vals / S.
Proof.
  induction vals as [|v vals IH]; [simpl; lra |].
  rewrite fmap_cons. simpl. rewrite IH. lra.
Qed.

(** The softmax weights add up to 1. *)
Lemma softmax_list_sum (lg : list R) :
  lg <> [] -> foldr Rplus 0 (softmax_list lg) = 1.
Proof.
  intros Hne. pose proof (exp_sum_pos lg Hne) as Hpos.
  unfold softmax_list.
  change (foldr Rplus 0
            ((fun v => exp v / foldr Rplus 0 (exp <$> lg)) <$> lg) = 1).
  set (S := foldr Rplus 0 (exp <$> lg)) in *.
  transitivity (foldr Rplus 0 ((fun v => v / S) <$> (exp <$> lg))).
  { f_equal. by rewrite <- list_fmap_compose. }
  rewrite sum_scaled. apply Rdiv_diag. lra.
Qed.

(** A softmax weight is at most the exponential of the gap between its
    logit and any other logit. *)
Lemma softmax_list_le (lg : list R) (p q : nat) (vp vq wp : R) :
  lg !! p = Some vp -> lg !! q = Some vq ->
  softmax_list lg !! p = Some wp ->
  wp <= exp (vp - vq).
Proof.
  intros Hp Hq Hw. unfold softmax_list in Hw.
  rewrite list_lookup_fmap, Hp in Hw. injection Hw as <-.
  change (exp vp / foldr Rplus 0 (exp <$> lg) <= exp (vp - vq)).
  pose proof (exp_sum_ge lg q vq Hq) as Hge.
  pose proof (exp_pos vp) as Hvp. pose proof (exp_pos vq) as Hvq.
  unfold Rminus. rewrite exp_plus, exp_Ropp.
  unfold Rdiv. apply Rmult_le_compat_l; [lra |].
  apply Rinv_le_contravar; lra.
Qed.

Lemma exp_INR_mult (n : nat) (x : R) : exp (INR n * x) = exp x ^ n.
Proof.
  induction n as [|n IH].
  - simpl. rewrite Rmult_0_l. apply exp_0.
  - rewrite S_INR, Rmult_plus_distr_r, Rmult_1_l, exp_plus, IH.
    simpl. lra.
Qed.

Lemma exp_below_minus_20 (x : R) : x <= - 20 -> exp x < 1 / 1000000.
Proof.
  intros Hx.
  assert (H2 : 2 <= exp 1) by (pose proof (exp_ineq1_le 1); lra).
  assert (Hpow : 2 ^ 20 <= exp 1 ^ 20) by (apply pow_incr; lra).
  assert (He : exp 20 = exp 1 ^ 20).
  { replace 20 with (INR 20 * 1) at 1 by (simpl; lra).
    apply exp_INR_mult. }
  assert (H20 : 2 ^ 20 = 1048576) by lra.
  assert (Hle : exp 20 <= exp (- x)).
  { destruct (Req_dec 20 (- x)) as [<- | Hne]; [lra |].
    apply Rlt_le, exp_increasing. lra. }
  replace x with (- - x) by lra. rewrite exp_Ropp.
  unfold Rdiv. rewrite Rmult_1_l.
  apply Rinv_lt_contravar; [| lra].
  apply Rmult_lt_0_compat; [lra |]. apply exp_pos.
Qed.

End AttnReal.

Section AttnRealFacts.
Local Open Scope R_scope.
Variable nn_Linear : Z -> Z -> torch.Linear R.

(** Over the reals the penalty is 0 inside the span and [-1e10] outside. *)
Lemma attn_logits_lookup (w : list R) (c : R) (s e : Z)
    (rows : list (list R)) (p : nat) (r : list R) :
  rows !! p = Some r ->
  attn_logits w c s e rows !! p
  = Some (torch.dot r w + c
          + (if ((s <=? Z.of_nat p)%Z && (Z.of_nat p <=? e)%Z)%bool
             then 0 else - big)).
Proof.
  intros Hr. apply lookup_lt_Some in Hr as Hp. unfold attn_logits.
  rewrite lookup_zip_with, lookup_seqZ_lt by lia. simpl. rewrite Hr. simpl.
  rewrite Z.add_0_l. f_equal.
  destruct ((s <=? Z.of_nat p)%Z && (Z.of_nat p <=? e)%Z)%bool; lra.
Qed.

(** C9, as the code has it.  On a [B, L, D] (optionally projected) input
    with in-range span boundaries, the attention weights of every batch
    element add up to 1 over the sequence axis; the weight of an
    out-of-span position [p] is at most
    [exp (score p - score q - 1e10)] for every in-span position [q], so
    it is below [1e-6] as soon as its score exceeds the score of some
    in-span position by at most [1e10 - 20]; and the output is the sum
    of the token vectors weighted by those weights. *)
Theorem AttnSpanRepr_forward_weights :
  forall input_dim use_proj proj_dim x start_ids end_ids (B L D : nat)
         (w : list R) (c : R),
    let self := instantiate nn_Linear cls_AttnSpanRepr input_dim use_proj proj_dim in
    let x' := projected nn_Linear input_dim use_proj proj_dim x in
    let l := nn_Linear (if use_proj then proj_dim else input_dim) 1 in
    let score := fun r : list R => torch.dot r w + c in
    torch.weight l = [w] -> torch.bias l = [c] ->
    shape3 B L D x' ->
    length start_ids = B -> length end_ids = B ->
    Forall2 (in_range L) start_ids end_ids ->
    exists W out,
      AttnSpanRepr_attention_wts self x' start_ids end_ids = Ok W /\
      AttnSpanRepr_forward self x start_ids end_ids = Ok out /\
      forall b s e rows,
        start_ids !! b = Some s -> end_ids !! b = Some e ->
        x' !! b = Some rows ->
        exists wts : list R,
          W !! b = Some ((fun v => [v]) <$> wts) /\
          length wts = L /\
          foldr Rplus 0 wts = 1 /\
          (forall (p q : nat) rp rq wp,
             ~ (s <= Z.of_nat p <= e)%Z -> (s <= Z.of_nat q <= e)%Z ->
             rows !! p = Some rp -> rows !! q = Some rq ->
             wts !! p = Some wp ->
             wp <= exp (score rp - score rq - big) /\
             (score rp - score rq <= big - 20 -> wp < 1 / 1000000)) /\
          out !! b
          = Some (torch.sum_rows (zip_with (fun wv r => Rmult wv <$> r) wts rows)).
Proof.
  intros input_dim use_proj proj_dim x start_ids end_ids B L D w c
    self x' l score Hw Hc Hx Hs He Hrange.
  destruct (AttnSpanRepr_forward_rows nn_Linear input_dim use_proj proj_dim x
              start_ids end_ids B L D w c Hw Hc Hx Hs He)
    as (W & out & HW & Hout & _ & _ & Hrows).
  exists W, out. split; [done |]. split; [done |].
  intros b s e rows Hbs Hbe Hxb.
  destruct (Hrows b s e rows Hbs Hbe Hxb) as [HWb Hob].
  pose proof (Forall2_lookup_lr _ _ _ _ _ _ Hrange Hbs Hbe) as (Hs0 & Hse & HeL).
  destruct (shape3_lookup _ _ _ _ _ _ Hx Hxb) as [HL HD].
  set (lg := attn_logits w c s e rows) in *.
  assert (Hlg : length lg = L).
  { unfold lg, attn_logits. rewrite length_zip_with, length_seqZ. lia. }
  exists (softmax_list lg).
  split; [done |].
  split; [unfold softmax_list; by rewrite length_fmap |].
  split.
  { apply softmax_list_sum. intros Hnil. rewrite Hnil in Hlg.
    simpl in Hlg. lia. }
  split; [| done].
  intros p q rp rq wp Hp Hq Hrp Hrq Hwp.
  pose proof (attn_logits_lookup w c s e rows p rp Hrp) as Hlp.
  pose proof (attn_logits_lookup w c s e rows q rq Hrq) as Hlq.
  fold lg in Hlp, Hlq.
  destruct (Z.leb_spec s (Z.of_nat q)); [| lia].
  destruct (Z.leb_spec (Z.of_nat q) e); [| lia].
  assert (Hpen : ((s <=? Z.of_nat p)%Z && (Z.of_nat p <=? e)%Z)%bool = false).
  { apply andb_false_iff.
    destruct (Z.leb_spec s (Z.of_nat p)); [| by left].
    destruct (Z.leb_spec (Z.of_nat p) e); [lia | by right]. }
  rewrite Hpen in Hlp. simpl in Hlq.
  pose proof (softmax_list_le lg p q _ _ wp Hlp Hlq Hwp) as Hle.
  fold (score rp) in Hle. fold (score rq) in Hle.
  assert (Hgap : score rp + - big - (score rq + 0) = score rp - score rq - big)
    by lra.
  rewrite Hgap in Hle. split; [done |].
  intros Hsc.
  eapply Rle_lt_trans; [exact Hle |].
  apply exp_below_minus_20. lra.
Qed.

End AttnRealFacts.

(** ** The scalar instances satisfy the laws *)

Section Instances.

#[global] Instance Qc_ScalarLaws : ScalarLaws Qc.
Proof.
  split; simpl.
  - intros x. ring.
  - intros x. ring.
  - intros x. ring.
  - intros x. ring.
  - intros x. ring.
  - intros x. ring.
  - intros x. ring.
  - intros x. field. discriminate.
  - done.
  - discriminate.
  - intros x. apply Qle_bool_iff, Qle_refl.
  - intros x y. rewrite !Qle_bool_iff.
    destruct (Qlt_le_dec x y) as [Hlt | Hle]; [left; by apply Qlt_le_weak | by right].
  - intros x y z. rewrite !Qle_bool_iff. apply Qle_trans.
  - intros x y. rewrite !Qle_bool_iff. intros Hxy Hyx.
    apply Qc_is_canon. by apply Qle_antisym.
Qed.

#[global] Instance R_ScalarLaws : ScalarLaws R.
Proof.
  split; simpl; try (intros; lra).
  - intros x. destruct (Rle_dec x x); [done | lra].
  - intros x y. destruct (Rle_dec x y), (Rle_dec y x); auto. lra.
  - intros x y z. destruct (Rle_dec x y), (Rle_dec y z), (Rle_dec x z);
      try done. lra.
  - intros x y. destruct (Rle_dec x y), (Rle_dec y x); try done.
    intros _ _. lra.
Qed.

End Instances.

(** ** The theorems at concrete inputs *)

Section Witnesses.

Ltac qc_eq := apply Qc_is_canon; vm_compute; reflexivity.
Ltac qc_list :=
  repeat first [ reflexivity | apply (f_equal2 (@cons Qc)); [qc_eq |] ].

Lemma scenario_shape : shape3 1 5 4 scenario_input.
Proof. split; [reflexivity | repeat constructor]. Defined.

Lemma scenario_range : Forall2 (in_range 5) [1] [3].
Proof. repeat constructor; unfold in_range; lia. Defined.

Lemma bogus_not_recognized : "bogus" ∉ recognized_tags.
Proof.
  unfold recognized_tags. intros Hin.
  repeat (apply elem_of_cons in Hin as [Hin | Hin]; [discriminate |]).
  by apply elem_of_nil in Hin.
Defined.

(** C1 at [get_span_module(768, method="bogus")]. *)
Lemma get_span_module_dispatch_witness :
  ("bogus" ∉ recognized_tags) /\
  get_span_module (ones_Linear (A:=Qc)) 768 (Some "bogus") None None
  = Raise NotImplementedError.
Proof.
  split; [exact bogus_not_recognized |].
  exact (proj1 (get_span_module_dispatch ones_Linear)
           768 "bogus" None None bogus_not_recognized).
Defined.

Lemma scenario_projected_shape :
  shape3 1 5 2 (projected ones_Linear 4 true 2 scenario_input).
Proof. split; [reflexivity | repeat constructor]. Defined.

(** C4 on the scenario with the projection active ([proj_dim = 2], all
    weights 1): the projected rows 1, 2, 3 are [22, 22], [38, 38] and
    [54, 54], and their mean is [38, 38]. *)
Lemma MeanSpanRepr_forward_mean_witness :
  shape3 1 5 2 (projected ones_Linear 4 true 2 scenario_input) /\
  Forall2 (in_range 5) [1] [3] /\
  exists out,
    MeanSpanRepr_forward (instantiate ones_Linear cls_MeanSpanRepr 4 true 2)
      scenario_input [1] [3] = Ok out /\
    out !! 0%nat = Some [qc 38; qc 38].
Proof.
  split; [exact scenario_projected_shape |]. split; [exact scenario_range |].
  destruct (MeanSpanRepr_forward_mean ones_Linear 4 true 2 scenario_input
              [1] [3] 1 5 2 scenario_projected_shape eq_refl eq_refl
              scenario_range)
    as (out & Hf & _ & Hrow).
  exists out. split; [exact Hf |].
  destruct (Hrow 0%nat 1 3 _ eq_refl eq_refl eq_refl) as [Ho _].
  rewrite Ho. f_equal; vm_compute; qc_list.
Defined.

(** C6 on the scenario: row 1 followed by row 3. *)
Lemma EndPointRepr_forward_concat_witness :
  shape3 1 5 4 scenario_input /\ Forall2 (in_range 5) [1] [3] /\
  exists out,
    EndPointRepr_forward (instantiate ones_Linear cls_EndPointRepr 4 false 256)
      scenario_input [1] [3] = Ok out /\
    out !! 0%nat
    = Some [qc 4; qc 5; qc 6; qc 7; qc 12; qc 13; qc 14; qc 15].
Proof.
  split; [exact scenario_shape |]. split; [exact scenario_range |].
  destruct (EndPointRepr_forward_concat ones_Linear 4 false 256 scenario_input
              [1] [3] 1 5 4 scenario_shape eq_refl eq_refl scenario_range)
    as (out & Hf & _ & _ & Hrow).
  exists out. split; [exact Hf |].
  destruct (Hrow 0%nat 1 3 _ eq_refl eq_refl eq_refl)
    as (vs & ve & Hvs & Hve & Ho).
  injection Hvs as <-. injection Hve as <-. exact Ho.
Defined.

(** C7 on the scenario: row 3 minus row 1, then row 3 plus row 1. *)
Lemma DiffSumSpanRepr_forward_concat_witness :
  shape3 1 5 4 scenario_input /\ Forall2 (in_range 5) [1] [3] /\
  exists out,
    DiffSumSpanRepr_forward
      (instantiate ones_Linear cls_DiffSumSpanRepr 4 false 256)
      scenario_input [1] [3] = Ok out /\
    out !! 0%nat
    = Some [qc 8; qc 8; qc 8; qc 8; qc 16; qc 18; qc 20; qc 22].
Proof.
  split; [exact scenario_shape |]. split; [exact scenario_range |].
  destruct (DiffSumSpanRepr_forward_concat ones_Linear 4 false 256
              scenario_input [1] [3] 1 5 4
              scenario_shape eq_refl eq_refl scenario_range)
    as (out & Hf & _ & _ & Hrow).
  exists out. split; [exact Hf |].
  destruct (Hrow 0%nat 1 3 _ eq_refl eq_refl eq_refl)
    as (vs & ve & Hvs & Hve & Ho).
  injection Hvs as <-. injection Hve as <-.
  rewrite Ho. f_equal; vm_compute; qc_list.
Defined.

(** C8 for the span [1..3] in a sequence of length 5. *)
Lemma get_span_mask_span_witness :
  in_range 5 1 3 /\
  exists row,
    utils.get_span_mask (A:=Qc) [1] [3] 5 !! 0%nat = Some row /\
    row = [[s0]; [s1]; [s1]; [s1]; [s0]].
Proof.
  assert (Hr : in_range 5 1 3) by (unfold in_range; lia).
  split; [exact Hr |].
  destruct (get_span_mask_span (A:=Qc) [1] [3] 5 0 1 3 eq_refl eq_refl Hr)
    as (row & Hrow & _ & _ & Heq).
  exists row. split; [exact Hrow |].
  rewrite Heq. reflexivity.
Defined.

Lemma scenario_max_channel_0 :
  is_span_max [ [qc 0; qc 1; qc 2; qc 3];
                [qc 4; qc 5; qc 6; qc 7];
                [qc 8; qc 9; qc 10; qc 11];
                [qc 12; qc 13; qc 14; qc 15];
                [qc 16; qc 17; qc 18; qc 19] ] 1 3 0 (qc 12).
Proof.
  split.
  - exists 3, [qc 12; qc 13; qc 14; qc 15]. split; [lia | by split].
  - intros p r v Hp Hr Hv.
    assert (Hcases : p = 1 \/ p = 2 \/ p = 3) by lia.
    destruct Hcases as [-> | [-> | ->]];
      injection Hr as <-; injection Hv as <-; reflexivity.
Defined.

(** C5 on the scenario: channel 0 of the maximum over rows 1, 2, 3. *)
Lemma MaxSpanRepr_forward_max_witness :
  shape3 1 5 4 scenario_input /\ Forall2 (in_range 5) [1] [3] /\
  sleb (sopp big) (qc 12) = true /\
  exists out row,
    MaxSpanRepr_forward (instantiate ones_Linear cls_MaxSpanRepr 4 false 256)
      scenario_input [1] [3] = Ok out /\
    out !! 0%nat = Some row /\ row !! 0%nat = Some (qc 12).
Proof.
  split; [exact scenario_shape |]. split; [exact scenario_range |].
  split; [reflexivity |].
  destruct (MaxSpanRepr_forward_max ones_Linear 4 false 256 scenario_input
              [1] [3] 1 5 4 scenario_shape eq_refl eq_refl scenario_range)
    as (out & Hf & _ & _ & Hrow).
  destruct (Hrow 0%nat 1 3 _ 0%nat (qc 12) eq_refl eq_refl eq_refl
              scenario_max_channel_0)
    as (row & Ho & _ & Hm).
  exists out, row. split; [exact Hf |]. split; [exact Ho |].
  exact (Hm eq_refl).
Defined.

(** C5 as stated fails below the penalty: with [-2e10] as the only
    in-span value and one position outside the span, the output is
    [-1e10], not the span maximum [-2e10]. *)
Lemma MaxSpanRepr_forward_penalty_wins :
  shape3 1 2 1 low_input /\ Forall2 (in_range 2) [0] [0] /\
  is_span_max [ [qc (-20000000000)]; [qc 0] ] 0 0 0 (qc (-20000000000)) /\
  MaxSpanRepr_forward (instantiate ones_Linear cls_MaxSpanRepr 1 false 256)
    low_input [0] [0] = Ok [[sopp big]] /\
  sopp big <> qc (-20000000000).
Proof.
  split; [split; [reflexivity | repeat constructor] |].
  split; [repeat constructor; unfold in_range; lia |].
  split; [| split].
  - split.
    + exists 0, [qc (-20000000000)]. split; [lia | by split].
    + intros p r v Hp Hr Hv. assert (p = 0) as -> by lia.
      injection Hr as <-. injection Hv as <-. reflexivity.
  - vm_compute. reflexivity.
  - intros Heq. apply (f_equal this) in Heq. vm_compute in Heq. discriminate.
Defined.

Lemma high_input_shape : shape3 1 2 1 high_input.
Proof. split; [reflexivity | repeat constructor]. Defined.

Lemma high_input_range : Forall2 (in_range 2) [0] [0].
Proof. repeat constructor; unfold in_range; lia. Defined.

Lemma ones_Linear_weight : torch.weight (ones_Linear (A:=R) 1 1) = [[1%R]].
Proof. reflexivity. Defined.

Lemma ones_Linear_bias : torch.bias (ones_Linear (A:=R) 1 1) = [0%R].
Proof. reflexivity. Defined.

(** C9 on a two-position input with the span [0..0]. *)
Lemma AttnSpanRepr_forward_weights_witness :
  shape3 1 2 1 high_input /\ Forall2 (in_range 2) [0] [0] /\
  exists W out wts,
    AttnSpanRepr_attention_wts
      (instantiate ones_Linear cls_AttnSpanRepr 1 false 256)
      high_input [0] [0] = Ok W /\
    AttnSpanRepr_forward
      (instantiate ones_Linear cls_AttnSpanRepr 1 false 256)
      high_input [0] [0] = Ok out /\
    W !! 0%nat = Some ((fun v => [v]) <$> wts) /\
    foldr Rplus 0%R wts = 1%R.
Proof.
  split; [exact high_input_shape |]. split; [exact high_input_range |].
  destruct (AttnSpanRepr_forward_weights ones_Linear 1 false 256 high_input
              [0] [0] 1 2 1 [1%R] 0%R ones_Linear_weight ones_Linear_bias
              high_input_shape eq_refl eq_refl high_input_range)
    as (W & out & HW & Hout & Hrow).
  destruct (Hrow 0%nat 0 0 _ eq_refl eq_refl eq_refl)
    as (wts & HWb & _ & Hsum & _).
  exists W, out, wts. split; [exact HW |]. split; [exact Hout |].
  split; [exact HWb | exact Hsum].
Defined.

Lemma softmax_two_zero_logits (a b : R) :
  a = 0%R -> b = 0%R ->
  [[(exp a / (exp a + (exp b + 0)))%R]; [(exp b / (exp a + (exp b + 0)))%R]]
  = [[(1 / 2)%R]; [(1 / 2)%R]].
Proof. intros -> ->. rewrite exp_0. repeat f_equal; lra. Defined.

(** C9 as stated fails for large scores: with score [1e10] at the
    out-of-span position and score 0 inside the span, both positions get
    weight [1/2], so the out-of-span weight is not below [1e-6]. *)
Lemma AttnSpanRepr_out_of_span_weight_half :
  shape3 1 2 1 high_input /\ Forall2 (in_range 2) [0] [0] /\
  AttnSpanRepr_attention_wts
    (instantiate ones_Linear cls_AttnSpanRepr 1 false 256)
    high_input [0] [0] = Ok [[ [(1 / 2)%R]; [(1 / 2)%R] ]] /\
  ~ (1 / 2 < 1 / 1000000)%R.
Proof.
  split; [exact high_input_shape |]. split; [exact high_input_range |].
  split; [| lra].
  destruct (AttnSpanRepr_forward_rows ones_Linear 1 false 256 high_input
              [0] [0] 1 2 1 [1%R] 0%R ones_Linear_weight ones_Linear_bias
              high_input_shape eq_refl eq_refl)
    as (W & out & HW & _ & HlW & _ & Hrow).
  destruct (Hrow 0%nat 0 0 _ eq_refl eq_refl eq_refl) as [HWb _].
  change (projected ones_Linear 1 false 256 high_input) with high_input in HW.
  rewrite HW. f_equal.
  destruct W as [|W0 [|W1 W]]; try discriminate.
  injection HWb as ->. f_equal.
  unfold softmax_list, attn_logits, torch.dot, sexp, R_ScalarExp. simpl.
  apply softmax_two_zero_logits; lra.
Defined.

(** The end-to-end scenario of the spec (8), run on the definitions:
    [input_dim = 4], [seq_len = 5], one batch element holding 0..19,
    span [1..3]. *)
Example scenario_mean :
  MeanSpanRepr_forward (instantiate ones_Linear cls_MeanSpanRepr 4 false 256)
    scenario_input [1] [3]
  = Ok [[qc 8; qc 9; qc 10; qc 11]].
Proof.
  vm_compute. apply (f_equal Ok), (f_equal (fun r => [r])). qc_list.
Qed.

Example scenario_max :
  MaxSpanRepr_forward (instantiate ones_Linear cls_MaxSpanRepr 4 false 256)
    scenario_input [1] [3]
  = Ok [[qc 12; qc 13; qc 14; qc 15]].
Proof.
  vm_compute. apply (f_equal Ok), (f_equal (fun r => [r])). qc_list.
Qed.

Example scenario_endpoint :
  EndPointRepr_forward (instantiate ones_Linear cls_EndPointRepr 4 false 256)
    scenario_input [1] [3]
  = Ok [[qc 4; qc 5; qc 6; qc 7; qc 12; qc 13; qc 14; qc 15]].
Proof.
  vm_compute. apply (f_equal Ok), (f_equal (fun r => [r])). qc_list.
Qed.

Example scenario_diff_sum :
  DiffSumSpanRepr_forward
    (instantiate ones_Linear cls_DiffSumSpanRepr 4 false 256)
    scenario_input [1] [3]
  = Ok [[qc 8; qc 8; qc 8; qc 8; qc 16; qc 18; qc 20; qc 22]].
Proof.
  vm_compute. apply (f_equal Ok), (f_equal (fun r => [r])). qc_list.
Qed.

(** An index outside the sequence makes the indexing variants raise. *)
Example endpoint_out_of_range :
  EndPointRepr_forward (instantiate ones_Linear cls_EndPointRepr 4 false 256)
    scenario_input [1] [5]
  = Raise IndexError.
Proof. vm_compute. reflexivity. Qed.

End Witnesses.

(** * Further properties of the unit *)

(** ** Reported dimensions *)

Section DimensionFacts.
Context {A : Type} `{Scalar A}.
Variable nn_Linear : Z -> Z -> torch.Linear A.

(** X1. For the tags "mean", "max", "endpoint" and "diff_sum" the object
    the factory returns reports the pooled width: [input_dim], or
    [proj_dim] when the projection is active, doubled for the two
    boundary-token variants; omitted arguments take their defaults. *)
Theorem get_span_module_output_dim_table :
  forall input_dim use_proj proj_dim,
    let D := if default false use_proj
             then default 256 proj_dim else input_dim in
    (self ← get_span_module nn_Linear input_dim (Some "mean") use_proj proj_dim;
     get_output_dim self) = Ok (VInt D) /\
    (self ← get_span_module nn_Linear input_dim (Some "max") use_proj proj_dim;
     get_output_dim self) = Ok (VInt D) /\
    (self ← get_span_module nn_Linear input_dim (Some "endpoint") use_proj proj_dim;
     get_output_dim self) = Ok (VInt (2 * D)) /\
    (self ← get_span_module nn_Linear input_dim (Some "diff_sum") use_proj proj_dim;
     get_output_dim self) = Ok (VInt (2 * D)).
Proof.
  intros input_dim use_proj proj_dim D.
  split; [| split; [| split]].
  - exact (get_output_dim_table nn_Linear cls_MeanSpanRepr input_dim
             (default false use_proj) (default 256 proj_dim) ltac:(done)).
  - exact (get_output_dim_table nn_Linear cls_MaxSpanRepr input_dim
             (default false use_proj) (default 256 proj_dim) ltac:(done)).
  - exact (get_output_dim_table nn_Linear cls_EndPointRepr input_dim
             (default false use_proj) (default 256 proj_dim) ltac:(done)).
  - exact (get_output_dim_table nn_Linear cls_DiffSumSpanRepr input_dim
             (default false use_proj) (default 256 proj_dim) ltac:(done)).
Qed.

(** X2. [get_input_dim] returns the [input_dim] the instance was built
    with, for every class and whether or not the projection is active;
    this includes [AttnSpanRepr], whose [__init__] rebinds its local
    [input_dim] to [proj_dim] only after the attribute was stored. *)
Theorem get_input_dim_returns_constructor_argument :
  forall c input_dim use_proj proj_dim,
    SpanRepr_get_input_dim
      (instantiate nn_Linear c input_dim use_proj proj_dim)
    = Ok (VInt input_dim).
Proof.
  intros c input_dim use_proj proj_dim.
  by destruct (instantiate_attrs nn_Linear c input_dim use_proj proj_dim)
    as (Hi & _).
Qed.

(** X12. An instance of any of the five classes holds a projection
    layer exactly when it was built with [use_proj] true, and then it is
    the layer constructed for [(input_dim, proj_dim)]; without
    projection reading [self.proj] raises [AttributeError]. *)
Theorem proj_attribute_iff_use_proj :
  forall c input_dim (use_proj : bool) proj_dim,
    getattr (instantiate nn_Linear c input_dim use_proj proj_dim) "proj"
    = if use_proj
      then Ok (VModule (nn_Linear input_dim proj_dim))
      else Raise (AttributeError "proj").
Proof.
  intros c input_dim use_proj proj_dim.
  unfold getattr.
  destruct c, use_proj; simpl;
    unfold AttnSpanRepr__init__, SpanRepr__init__, setattr, new_object; simpl;
    by simplify_map_eq.
Qed.

End DimensionFacts.

(** ** Independence from unused constructor arguments *)

Section NoProjectionFacts.
Context {A : Type} `{Scalar A}.

(** X3. Without projection, [forward] of the four pooling classes that
    hold no layer of their own uses neither [input_dim] nor [proj_dim]
    nor the layer constructor: instances built with different values of
    them compute the same result on every input. *)
Theorem forward_without_projection_ignores_dims :
  forall (nn nn' : Z -> Z -> torch.Linear A) d d' pd pd' x start_ids end_ids,
    MeanSpanRepr_forward (instantiate nn cls_MeanSpanRepr d false pd)
      x start_ids end_ids
    = MeanSpanRepr_forward (instantiate nn' cls_MeanSpanRepr d' false pd')
        x start_ids end_ids /\
    MaxSpanRepr_forward (instantiate nn cls_MaxSpanRepr d false pd)
      x start_ids end_ids
    = MaxSpanRepr_forward (instantiate nn' cls_MaxSpanRepr d' false pd')
        x start_ids end_ids /\
    EndPointRepr_forward (instantiate nn cls_EndPointRepr d false pd)
      x start_ids end_ids
    = EndPointRepr_forward (instantiate nn' cls_EndPointRepr d' false pd')
        x start_ids end_ids /\
    DiffSumSpanRepr_forward (instantiate nn cls_DiffSumSpanRepr d false pd)
      x start_ids end_ids
    = DiffSumSpanRepr_forward (instantiate nn' cls_DiffSumSpanRepr d' false pd')
        x start_ids end_ids.
Proof.
  intros nn nn' d d' pd pd' x start_ids end_ids.
  unfold MeanSpanRepr_forward, MaxSpanRepr_forward, EndPointRepr_forward,
    DiffSumSpanRepr_forward.
  by rewrite !apply_proj_instantiate.
Qed.

End NoProjectionFacts.

(** ** Indexing at and beyond the bounds *)

Section IndexFacts.
Context {A : Type} `{Scalar A}.

Lemma getitem_cases {T : Type} (l : list T) (i : Z) :
  getitem l i = Raise IndexError \/ exists v, getitem l i = Ok v.
Proof.
  unfold getitem. destruct (_ || _); [by left |].
  destruct (l !! _) as [v|]; [right; by exists v | by left].
Qed.

Lemma getitem_out_of_range {T : Type} (l : list T) (i : Z) :
  i < - Z.of_nat (length l) \/ Z.of_nat (length l) <= i ->
  getitem l i = Raise IndexError.
Proof.
  intros Hi. unfold getitem.
  destruct (Z.ltb_spec i 0) as [Hneg | Hpos].
  - destruct Hi as [Hi | Hi]; [| lia].
    destruct (Z.ltb_spec (i + Z.of_nat (length l)) 0); [done | lia].
  - destruct Hi as [Hi | Hi]; [lia |].
    destruct (Z.ltb_spec i 0); [lia |].
    destruct (Z.leb_spec (Z.of_nat (length l)) i); [done | lia].
Qed.

(** An index in [-len, len) reads the element at its wrapped position. *)
Lemma getitem_wrap_Ok {T : Type} (l : list T) (i : Z) (v : T) :
  - Z.of_nat (length l) <= i < Z.of_nat (length l) ->
  l !! Z.to_nat (if i <? 0 then i + Z.of_nat (length l) else i) = Some v ->
  getitem l i = Ok v.
Proof.
  intros Hi Hv. unfold getitem.
  set (j := if i <? 0 then i + Z.of_nat (length l) else i) in *.
  assert (Hj : 0 <= j < Z.of_nat (length l)).
  { unfold j. destruct (Z.ltb_spec i 0); lia. }
  destruct (Z.ltb_spec j 0); [lia |].
  destruct (Z.leb_spec (Z.of_nat (length l)) j); [lia |].
  simpl. by rewrite Hv.
Qed.

Lemma mapM_cases {X Y : Type} (f : X -> result Y) (e0 : exn) (l : list X) :
  (forall a, a ∈ l -> f a = Raise e0 \/ exists v, f a = Ok v) ->
  mapM f l = Raise e0 \/ exists k, mapM f l = Ok k.
Proof.
  induction l as [|a l IH]; intros Hf; [right; by exists [] |].
  simpl.
  destruct (Hf a (list_elem_of_here _ _)) as [-> | [v ->]]; [by left |].
  simpl.
  destruct IH as [-> | [k ->]]; [| by left | right; by eexists].
  intros b Hb. apply Hf. by apply list_elem_of_further.
Qed.

Lemma mapM_Raise {X Y : Type} (f : X -> result Y) (e0 : exn) (l : list X) :
  (forall a, a ∈ l -> f a = Raise e0 \/ exists v, f a = Ok v) ->
  (exists a, a ∈ l /\ f a = Raise e0) ->
  mapM f l = Raise e0.
Proof.
  induction l as [|a l IH]; intros Hf (b & Hb & Hraise).
  - by apply elem_of_nil in Hb.
  - simpl.
    destruct (Hf a (list_elem_of_here _ _)) as [-> | [v Hv]]; [done |].
    rewrite Hv. simpl.
    apply elem_of_cons in Hb as [-> | Hb]; [congruence |].
    rewrite IH; [done | |].
    + intros c Hc. apply Hf. by apply list_elem_of_further.
    + by exists b.
Qed.

Lemma index_rows_cases (x : list (list (list A))) (rng ids : list Z) :
  torch.index_rows x rng ids = Raise IndexError \/
  exists v, torch.index_rows x rng ids = Ok v.
Proof.
  apply mapM_cases. intros [b i] _. simpl.
  destruct (getitem_cases x b) as [-> | [rows ->]]; [by left |].
  simpl. apply getitem_cases.
Qed.

(** One index outside [-L, L) makes the indexed read fail. *)
Lemma index_rows_out_of_range (x : list (list (list A))) (ids : list Z)
    (L b : nat) (i : Z) :
  length ids = length x ->
  Forall (fun rows => length rows = L) x ->
  ids !! b = Some i ->
  i < - Z.of_nat L \/ Z.of_nat L <= i ->
  torch.index_rows x (torch.arange (torch.shape_0 x)) ids = Raise IndexError.
Proof.
  intros Hlen Hx Hb Hi. unfold torch.index_rows.
  apply mapM_Raise.
  - intros [c j] _. simpl.
    destruct (getitem_cases x c) as [-> | [rows ->]]; [by left |].
    simpl. apply getitem_cases.
  - exists (Z.of_nat b, i). split.
    + apply list_elem_of_lookup. exists b.
      unfold torch.arange, torch.shape_0.
      rewrite broadcast_zip by (rewrite length_seqZ; lia).
      apply lookup_lt_Some in Hb as Hlt.
      rewrite lookup_zip_with, lookup_seqZ_lt by lia. simpl.
      by rewrite Hb.
    + simpl. apply lookup_lt_Some in Hb as Hlt.
      destruct (lookup_lt_is_Some_2 x b) as [rows Hrows]; [lia |].
      rewrite (getitem_Ok x _ rows); [| lia | by rewrite Nat2Z.id]. simpl.
      apply getitem_out_of_range.
      by rewrite (proj1 (Forall_lookup _ _) Hx _ _ Hrows).
Qed.

(** Indices in [-L, L) are read at their wrapped positions. *)
Lemma index_rows_wrap_Ok (x : list (list (list A))) (ids : list Z) (L : nat) :
  length ids = length x ->
  Forall (fun rows => length rows = L) x ->
  Forall (fun i => - Z.of_nat L <= i < Z.of_nat L) ids ->
  torch.index_rows x (torch.arange (torch.shape_0 x)) ids
  = Ok (zip_with
          (fun rows i =>
             default [] (rows !! Z.to_nat (if i <? 0 then i + Z.of_nat L else i)))
          x ids).
Proof.
  intros Hlen Hx Hids. unfold torch.index_rows, torch.arange, torch.shape_0.
  rewrite broadcast_zip by (rewrite length_seqZ; lia).
  rewrite (mapM_Ok _ (fun bi : Z * Z =>
             default [] (default [] (x !! Z.to_nat bi.1)
                           !! Z.to_nat (if bi.2 <? 0 then bi.2 + Z.of_nat L
                                        else bi.2)))).
  - f_equal. apply list_eq. intros k.
    rewrite list_lookup_fmap, !lookup_zip_with.
    destruct (x !! k) as [rows|] eqn:Hk; simpl.
    + rewrite lookup_seqZ_lt by (apply lookup_lt_Some in Hk; lia). simpl.
      destruct (ids !! k) as [i|]; simpl; [| done].
      by rewrite Z.add_0_l, Nat2Z.id, Hk.
    + apply lookup_ge_None in Hk.
      rewrite lookup_seqZ_ge by lia. done.
  - intros [b i] Hin.
    apply list_elem_of_lookup in Hin as [k Hk].
    apply lookup_zip_with_Some in Hk as (b' & i' & [= <- <-] & Hb & Hi).
    apply lookup_seqZ in Hb as [-> Hb]. simpl.
    destruct (lookup_lt_is_Some_2 x k) as [rows Hrows]; [lia |].
    rewrite Z.add_0_l.
    rewrite (getitem_Ok x _ rows); [| lia | by rewrite Nat2Z.id]. simpl.
    rewrite Nat2Z.id, Hrows. simpl.
    assert (Hr : length rows = L)
      by (eapply (proj1 (Forall_lookup _ _) Hx); done).
    assert (Hi' : - Z.of_nat L <= i < Z.of_nat L)
      by (eapply (proj1 (Forall_lookup _ _) Hids); done).
    set (j := if i <? 0 then i + Z.of_nat L else i).
    assert (Hj : 0 <= j < Z.of_nat L)
      by (unfold j; destruct (Z.ltb_spec i 0); lia).
    destruct (lookup_lt_is_Some_2 rows (Z.to_nat j)) as [r Hrow]; [lia |].
    rewrite (getitem_wrap_Ok rows i r); [by rewrite Hrow | lia |].
    rewrite Hr. exact Hrow.
Qed.

End IndexFacts.

Section BoundaryIndexFacts.
Context {A : Type} `{Scalar A}.
Variable nn_Linear : Z -> Z -> torch.Linear A.


(** X5. The boundary-token variants do not clamp: on a [B, L, D]
    (optionally projected) input, one start or end index outside
    [-L, L) makes [EndPointRepr.forward] and [DiffSumSpanRepr.forward]
    raise [IndexError] instead of returning a tensor. *)
Theorem boundary_variants_raise_out_of_range :
  forall input_dim use_proj proj_dim x start_ids end_ids (B L D b : nat) i,
    let x' := projected nn_Linear input_dim use_proj proj_dim x in
    shape3 B L D x' ->
    length start_ids = B -> length end_ids = B ->
    start_ids !! b = Some i \/ end_ids !! b = Some i ->
    i < - Z.of_nat L \/ Z.of_nat L <= i ->
    EndPointRepr_forward
      (instantiate nn_Linear cls_EndPointRepr input_dim use_proj proj_dim)
      x start_ids end_ids = Raise IndexError /\
    DiffSumSpanRepr_forward
      (instantiate nn_Linear cls_DiffSumSpanRepr input_dim use_proj proj_dim)
      x start_ids end_ids = Raise IndexError.
Proof.
  intros input_dim use_proj proj_dim x start_ids end_ids B L D b i x'
    Hx Hs He Hb Hi.
  pose proof Hx as [HB _].
  pose proof (shape3_rows _ _ _ _ Hx) as Hrows.
  unfold EndPointRepr_forward, DiffSumSpanRepr_forward.
  rewrite !apply_proj_instantiate. fold x'. simpl.
  destruct Hb as [Hb | Hb].
  - rewrite (index_rows_out_of_range x' start_ids L b i) by (done || lia).
    split; [done |].
    by destruct (index_rows_cases x' (torch.arange (torch.shape_0 x')) end_ids)
      as [-> | [E ->]].
  - rewrite (index_rows_out_of_range x' end_ids L b i) by (done || lia).
    split; [| done].
    by destruct (index_rows_cases x' (torch.arange (torch.shape_0 x')) start_ids)
      as [-> | [S ->]].
Qed.

(** X6. [EndPointRepr.forward] needs neither [start <= end] nor
    non-negative indices: for indices anywhere in [-L, L) it returns,
    for every batch element, the row at the start index followed by the
    row at the end index, a negative index [i] addressing position
    [L + i]. *)
Theorem EndPointRepr_forward_wraps_negative :
  forall input_dim use_proj proj_dim x start_ids end_ids (B L D : nat),
    let self := instantiate nn_Linear cls_EndPointRepr input_dim use_proj proj_dim in
    let x' := projected nn_Linear input_dim use_proj proj_dim x in
    let pos := fun i : Z => Z.to_nat (if i <? 0 then i + Z.of_nat L else i) in
    shape3 B L D x' ->
    length start_ids = B -> length end_ids = B ->
    Forall (fun i => - Z.of_nat L <= i < Z.of_nat L) start_ids ->
    Forall (fun i => - Z.of_nat L <= i < Z.of_nat L) end_ids ->
    exists out,
      EndPointRepr_forward self x start_ids end_ids = Ok out /\
      length out = B /\
      forall b s e rows,
        start_ids !! b = Some s -> end_ids !! b = Some e ->
        x' !! b = Some rows ->
        exists vs ve,
          rows !! pos s = Some vs /\ rows !! pos e = Some ve /\
          out !! b = Some (vs ++ ve)%list.
Proof.
  intros input_dim use_proj proj_dim x start_ids end_ids B L D self x' pos
    Hx Hs He Hsr Her.
  pose proof Hx as [HB _].
  pose proof (shape3_rows _ _ _ _ Hx) as Hrows.
  unfold EndPointRepr_forward, self.
  rewrite apply_proj_instantiate. fold x'. simpl.
  rewrite (index_rows_wrap_Ok x' start_ids L),
    (index_rows_wrap_Ok x' end_ids L) by (done || lia).
  simpl. eexists. split; [done |].
  unfold torch.cat_dim1. split.
  { rewrite !length_zip_with. lia. }
  intros b s e rows Hbs Hbe Hxb.
  destruct (shape3_lookup _ _ _ _ _ _ Hx Hxb) as [HL _].
  pose proof (proj1 (Forall_lookup _ _) Hsr _ _ Hbs) as Hs'.
  pose proof (proj1 (Forall_lookup _ _) Her _ _ Hbe) as He'.
  simpl in Hs', He'.
  destruct (lookup_lt_is_Some_2 rows (pos s)) as [vs Hvs].
  { unfold pos. destruct (Z.ltb_spec s 0); lia. }
  destruct (lookup_lt_is_Some_2 rows (pos e)) as [ve Hve].
  { unfold pos. destruct (Z.ltb_spec e 0); lia. }
  exists vs, ve. split; [done |]. split; [done |].
  rewrite lookup_zip_with.
  rewrite (lookup_zip_with _ x' start_ids), (lookup_zip_with _ x' end_ids).
  rewrite Hxb, Hbs, Hbe. simpl. fold (pos s) (pos e).
  by rewrite Hvs, Hve.
Qed.

End BoundaryIndexFacts.

(** ** Empty sequences *)

Section EmptySequenceFacts.
Context {A : Type} `{Scalar A}.
Variable nn_Linear : Z -> Z -> torch.Linear A.



End EmptySequenceFacts.

(** ** The mean outside the stated range *)

Section MeanRowFacts.
Context {A : Type} `{Scalar A}.
Variable nn_Linear : Z -> Z -> torch.Linear A.

(** [MeanSpanRepr.forward], batch element by batch element, for any
    boundaries. *)
Lemma MeanSpanRepr_forward_rows input_dim use_proj proj_dim x
    start_ids end_ids (B L D : nat) :
  let self := instantiate nn_Linear cls_MeanSpanRepr input_dim use_proj proj_dim in
  let x' := projected nn_Linear input_dim use_proj proj_dim x in
  shape3 B L D x' ->
  length start_ids = B -> length end_ids = B ->
  exists out,
    MeanSpanRepr_forward self x start_ids end_ids = Ok out /\
    length out = B /\
    forall b s e rows,
      start_ids !! b = Some s -> end_ids !! b = Some e ->
      x' !! b = Some rows ->
      out !! b
      = Some ((fun v => sdiv v (of_Z (e - s + 1)))
                <$> torch.sum_rows
                      (torch.broadcast (torch.broadcast smul) rows
                         (mask_row s e (Z.of_nat L)))).
Proof.
  intros self x' Hx Hs He.
  pose proof Hx as [HB _].
  unfold MeanSpanRepr_forward, self.
  rewrite apply_proj_instantiate. fold x'. simpl.
  eexists. split; [done |].
  set (M := utils.get_span_mask start_ids end_ids (torch.shape_1 x')).
  set (F := torch.float _).
  assert (HM : length M = B)
    by (unfold M; rewrite get_span_mask_length; lia).
  assert (HS : length (torch.sum_dim1 (torch.op3 smul x' M)) = B).
  { unfold torch.sum_dim1, torch.op3. rewrite length_fmap.
    rewrite broadcast_zip, length_zip_with by lia. lia. }
  assert (HF : length F = B).
  { unfold F, torch.float, torch.unsqueeze_1.
    rewrite !length_fmap, broadcast_zip, length_zip_with by lia. lia. }
  split.
  { unfold torch.op2. rewrite broadcast_zip, length_zip_with by lia. lia. }
  intros b s e rows Hbs Hbe Hrows.
  unfold torch.op2. rewrite broadcast_zip by lia.
  rewrite lookup_zip_with. unfold torch.sum_dim1.
  rewrite list_lookup_fmap.
  rewrite (op3_lookup smul x' M b rows (mask_row s e (Z.of_nat L))); [| lia | done |].
  2:{ unfold M. rewrite (shape_1_shape3 B L D x' b rows) by done.
      by apply get_span_mask_lookup. }
  simpl. unfold F. rewrite (span_lengths_lookup _ _ b s e) by (done || lia).
  simpl. by rewrite broadcast_singleton_r.
Qed.


End MeanRowFacts.

Section MeanBeyondFacts.
Context {A : Type} `{ScalarLaws A}.
Variable nn_Linear : Z -> Z -> torch.Linear A.


End MeanBeyondFacts.

(** ** Output width and reported dimension *)

Section WidthFacts.
Context {A : Type} `{ScalarLaws A}.
Variable nn_Linear : Z -> Z -> torch.Linear A.

Lemma masked_sum_length (L D : nat) (rows : list (list A)) s e :
  length rows = L -> (0 < L)%nat ->
  Forall (fun r => length r = D) rows ->
  length (torch.sum_rows
            (torch.broadcast (torch.broadcast smul) rows
               (mask_row s e (Z.of_nat L)))) = D.
Proof.
  intros HL Hpos HD.
  rewrite broadcast_zip by (by rewrite mask_row_length, Nat2Z.id).
  set (rows' := zip_with _ rows _).
  assert (HD' : Forall (fun r => length r = D) rows').
  { apply Forall_lookup. intros p r' Hr'.
    apply lookup_zip_with_Some in Hr' as (r & mr & -> & Hr & Hmr).
    apply lookup_lt_Some in Hr as Hp.
    rewrite mask_row_lookup in Hmr by lia. injection Hmr as <-.
    rewrite broadcast_singleton_r, length_fmap.
    exact (proj1 (Forall_lookup _ _) HD _ _ Hr). }
  assert (Hlen : length rows' = L).
  { unfold rows'. rewrite length_zip_with, mask_row_length. lia. }
  destruct rows' as [|r0 rest] eqn:Heq; [simpl in Hlen; lia |].
  unfold torch.sum_rows.
  rewrite (Forall_inv HD'). by apply foldr_vadd_length.
Qed.

Lemma penalised_rows_shape (L D : nat) (rows : list (list A)) s e :
  length rows = L -> Forall (fun r => length r = D) rows ->
  let tb :=
    torch.broadcast (torch.broadcast ssub)
      (torch.broadcast (torch.broadcast smul) rows (mask_row s e (Z.of_nat L)))
      ((fun r : list A => smul big <$> r)
         <$> ((fun r : list A => ssub s1 <$> r) <$> mask_row s e (Z.of_nat L))) in
  length tb = L /\ Forall (fun r => length r = D) tb.
Proof.
  intros HL HD tb.
  assert (Hmr : length (mask_row (A:=A) s e (Z.of_nat L)) = L)
    by (by rewrite mask_row_length, Nat2Z.id).
  assert (Hlen : length tb = L).
  { unfold tb. rewrite (broadcast_zip _ rows) by lia.
    rewrite broadcast_zip by (rewrite length_zip_with, !length_fmap; lia).
    rewrite !length_zip_with, !length_fmap. lia. }
  split; [done |].
  apply Forall_lookup. intros p r Hr.
  apply lookup_lt_Some in Hr as Hp.
  destruct (lookup_lt_is_Some_2 rows p) as [r0 Hr0]; [lia |].
  unfold tb in Hr. rewrite (penalised_row L rows s e p r0 HL Hr0) in Hr.
  injection Hr as <-.
  pose proof (proj1 (Forall_lookup _ _) HD _ _ Hr0) as Hl. simpl in Hl.
  destruct (_ && _); [done | by rewrite length_fmap].
Qed.

(** X9. What [forward] returns is as wide as [get_output_dim] says: on a
    [B, L, input_dim] input with in-range span boundaries, and with a
    projection layer of [proj_dim] output units when the projection is
    active, every row of the output of the mean, max, endpoint and
    diff/sum variants has exactly the reported number of channels. *)
Theorem forward_width_agrees_with_get_output_dim :
  forall input_dim (use_proj : bool) proj_dim x start_ids end_ids (B L : nat),
    let inst := fun c => instantiate nn_Linear c input_dim use_proj proj_dim in
    0 <= input_dim -> 0 <= proj_dim ->
    shape3 B L (Z.to_nat input_dim) x ->
    (use_proj = true ->
     length (torch.weight (nn_Linear input_dim proj_dim)) = Z.to_nat proj_dim /\
     length (torch.bias (nn_Linear input_dim proj_dim)) = Z.to_nat proj_dim) ->
    length start_ids = B -> length end_ids = B ->
    Forall2 (in_range L) start_ids end_ids ->
    agrees_with_output_dim
      (get_output_dim (inst cls_MeanSpanRepr))
      (MeanSpanRepr_forward (inst cls_MeanSpanRepr) x start_ids end_ids) /\
    agrees_with_output_dim
      (get_output_dim (inst cls_MaxSpanRepr))
      (MaxSpanRepr_forward (inst cls_MaxSpanRepr) x start_ids end_ids) /\
    agrees_with_output_dim
      (get_output_dim (inst cls_EndPointRepr))
      (EndPointRepr_forward (inst cls_EndPointRepr) x start_ids end_ids) /\
    agrees_with_output_dim
      (get_output_dim (inst cls_DiffSumSpanRepr))
      (DiffSumSpanRepr_forward (inst cls_DiffSumSpanRepr) x start_ids end_ids).
Proof.
  intros input_dim use_proj proj_dim x start_ids end_ids B L inst
    Hd Hpd Hx Hlayer Hs He Hrange.
  set (Dz := if use_proj then proj_dim else input_dim).
  set (D := Z.to_nat Dz).
  set (x' := projected nn_Linear input_dim use_proj proj_dim x).
  assert (HDz : 0 <= Dz) by (unfold Dz; by destruct use_proj).
  assert (Hx' : shape3 B L D x').
  { unfold x', D, Dz. destruct use_proj; [| done].
    destruct (Hlayer eq_refl) as [Hw Hb].
    exact (projected_shape nn_Linear input_dim true proj_dim x B L
             (Z.to_nat input_dim) (Z.to_nat proj_dim) Hx Hw Hb). }
  pose proof Hx' as [HB _].
  pose proof (in_range_starts _ _ _ Hrange) as Hsr.
  pose proof (in_range_ends _ _ _ Hrange) as Her.
  (* in-range boundaries of a non-empty batch need a non-empty sequence *)
  assert (HLpos : forall b, (b < B)%nat -> (0 < L)%nat).
  { intros b Hb.
    destruct (lookup_lt_is_Some_2 start_ids b) as [s Hbs]; [lia |].
    destruct (lookup_lt_is_Some_2 end_ids b) as [e Hbe]; [lia |].
    pose proof (Forall2_lookup_lr _ _ _ _ _ _ Hrange Hbs Hbe) as (? & ? & ?).
    lia. }
  split; [| split; [| split]].
  - (* mean *)
    destruct (MeanSpanRepr_forward_rows nn_Linear input_dim use_proj proj_dim x
                start_ids end_ids B L D Hx' Hs He) as (out & Hf & Hlen & Hrow).
    exists out, Dz. split; [exact Hf |]. split.
    { unfold inst. by rewrite get_output_dim_table. }
    apply Forall_lookup. intros b r Hr.
    apply lookup_lt_Some in Hr as Hb.
    destruct (lookup_lt_is_Some_2 start_ids b) as [s Hbs]; [lia |].
    destruct (lookup_lt_is_Some_2 end_ids b) as [e Hbe]; [lia |].
    destruct (lookup_lt_is_Some_2 x' b) as [rows Hrows]; [lia |].
    destruct (shape3_lookup _ _ _ _ _ _ Hx' Hrows) as [HL HD].
    rewrite (Hrow b s e rows Hbs Hbe Hrows) in Hr. injection Hr as <-.
    rewrite length_fmap, (masked_sum_length L D);
      [unfold D; lia | done | apply (HLpos b); lia | done].
  - (* max *)
    unfold agrees_with_output_dim, MaxSpanRepr_forward, inst.
    rewrite get_output_dim_table, apply_proj_instantiate by done.
    fold x'. simpl.
    set (M := utils.get_span_mask start_ids end_ids (torch.shape_1 x')).
    set (tmp := torch.op3 ssub _ _).
    assert (HM : length M = B)
      by (unfold M; rewrite get_span_mask_length; lia).
    assert (Hmul : length (torch.op3 smul x' M) = B).
    { unfold torch.op3. rewrite broadcast_zip, length_zip_with by lia. lia. }
    assert (Htmp_len : length tmp = B).
    { unfold tmp, torch.op3 at 1.
      rewrite broadcast_zip, length_zip_with;
        unfold torch.map3; rewrite ?length_fmap; lia. }
    assert (Htmp : forall b tb, tmp !! b = Some tb ->
              length tb = L /\ Forall (fun r => length r = D) tb).
    { intros b tb Hb. apply lookup_lt_Some in Hb as Hlt.
      destruct (lookup_lt_is_Some_2 start_ids b) as [s Hbs]; [lia |].
      destruct (lookup_lt_is_Some_2 end_ids b) as [e Hbe]; [lia |].
      destruct (lookup_lt_is_Some_2 x' b) as [rows Hrows]; [lia |].
      destruct (shape3_lookup _ _ _ _ _ _ Hx' Hrows) as [HL HD].
      assert (HMb : M !! b = Some (mask_row s e (Z.of_nat L))).
      { unfold M. rewrite (shape_1_shape3 B L D x' b rows) by done.
        by apply get_span_mask_lookup. }
      unfold tmp in Hb. erewrite op3_lookup in Hb.
      - injection Hb as <-. by apply penalised_rows_shape.
      - unfold torch.map3. rewrite !length_fmap. lia.
      - by apply (op3_lookup smul x' M b rows); [lia | |].
      - unfold torch.map3. by rewrite !list_lookup_fmap, HMb. }
    set (g := fun rows : list (list A) =>
                match rows with
                | [] => []
                | r :: rs => foldl (zip_with smax) r rs
                end).
    assert (Hmax : torch.max_dim1 tmp = Ok (g <$> tmp)).
    { apply mapM_Ok. intros tb Htb.
      apply list_elem_of_lookup in Htb as [b Hb].
      apply lookup_lt_Some in Hb as Hlt.
      destruct (Htmp b tb Hb) as [Hlen _].
      destruct tb; [| done].
      simpl in Hlen. specialize (HLpos b). lia. }
    rewrite Hmax. simpl.
    exists (g <$> tmp), Dz. split; [done |]. split; [done |].
    apply Forall_lookup. intros b r Hr.
    apply list_lookup_fmap_Some in Hr as (tb & -> & Hb).
    apply lookup_lt_Some in Hb as Hlt.
    destruct (Htmp b tb Hb) as [Hlen Hall].
    destruct tb as [|r0 rs]; [simpl in Hlen; specialize (HLpos b); lia |].
    apply Forall_cons in Hall as [Hr0 Hrs]. simpl.
    rewrite (proj1 (foldl_vmax D r0 rs Hr0 Hrs)). unfold D. lia.
  - (* endpoint *)
    destruct (picked_rows B L D x' start_ids Hx' Hs Hsr) as (Hls & Hds & _).
    destruct (picked_rows B L D x' end_ids Hx' He Her) as (Hle & Hde & _).
    unfold agrees_with_output_dim, EndPointRepr_forward, inst.
    rewrite get_output_dim_table, apply_proj_instantiate by done.
    fold x'. simpl.
    rewrite (index_rows_Ok x' start_ids L), (index_rows_Ok x' end_ids L);
      [| by (try lia; try apply (shape3_rows B L D)) ..].
    simpl. eexists. exists (2 * Dz). split; [done |]. split; [done |].
    unfold torch.cat_dim1. apply Forall_lookup. intros b r Hr.
    apply lookup_zip_with_Some in Hr as (vs & ve & -> & Hvs & Hve).
    rewrite length_app.
    rewrite (proj1 (Forall_lookup _ _) Hds _ _ Hvs).
    rewrite (proj1 (Forall_lookup _ _) Hde _ _ Hve). unfold D. lia.
  - (* diff/sum *)
    destruct (picked_rows B L D x' start_ids Hx' Hs Hsr) as (Hls & Hds & _).
    destruct (picked_rows B L D x' end_ids Hx' He Her) as (Hle & Hde & _).
    unfold agrees_with_output_dim, DiffSumSpanRepr_forward, inst.
    rewrite get_output_dim_table, apply_proj_instantiate by done.
    fold x'. simpl.
    rewrite (index_rows_Ok x' start_ids L), (index_rows_Ok x' end_ids L);
      [| by (try lia; try apply (shape3_rows B L D)) ..].
    simpl. eexists. exists (2 * Dz). split; [done |]. split; [done |].
    rewrite !(op2_same_shape _ _ _ D) by (done || lia).
    unfold torch.cat_dim1. apply Forall_lookup. intros b r Hr.
    apply lookup_zip_with_Some in Hr as (df & sm & -> & Hdf & Hsm).
    apply lookup_zip_with_Some in Hdf as (ve & vs & -> & Hve & Hvs).
    apply lookup_zip_with_Some in Hsm as (ve' & vs' & -> & Hve' & Hvs').
    rewrite length_app, !length_zip_with.
    rewrite (proj1 (Forall_lookup _ _) Hds _ _ Hvs),
      (proj1 (Forall_lookup _ _) Hds _ _ Hvs'),
      (proj1 (Forall_lookup _ _) Hde _ _ Hve),
      (proj1 (Forall_lookup _ _) Hde _ _ Hve'). unfold D. lia.
Qed.

End WidthFacts.

(** ** Attention as a convex combination *)

Section AttnConvexFacts.
Local Open Scope R_scope.
Variable nn_Linear : Z -> Z -> torch.Linear R.

Lemma softmax_list_lookup (lg : list R) (p : nat) (v : R) :
  lg !! p = Some v ->
  softmax_list lg !! p = Some (exp v / foldr Rplus 0 (exp <$> lg)).
Proof.
  intros Hp. unfold softmax_list. by rewrite list_lookup_fmap, Hp.
Qed.

Lemma softmax_list_range (lg : list R) :
  Forall (fun wv => 0 <= wv <= 1) (softmax_list lg).
Proof.
  apply Forall_lookup. intros p wv Hw.
  destruct (lookup_lt_is_Some_2 lg p) as [v Hv].
  { apply lookup_lt_Some in Hw. unfold softmax_list in Hw.
    by rewrite length_fmap in Hw. }
  rewrite (softmax_list_lookup lg p v Hv) in Hw. injection Hw as <-.
  pose proof (exp_pos v) as Hpos.
  pose proof (exp_sum_ge lg p v Hv) as Hge.
  set (S := foldr Rplus 0 (exp <$> lg)) in *.
  assert (Hinv : 0 < / S) by (apply Rinv_0_lt_compat; lra).
  split.
  - unfold Rdiv. apply Rlt_le, Rmult_lt_0_compat; lra.
  - replace 1 with (S / S) by (field; lra).
    unfold Rdiv. apply Rmult_le_compat_r; lra.
Qed.

Lemma sum_rows_foldr (D : nat) (rows : list (list R)) :
  rows <> [] -> Forall (fun r => length r = D) rows ->
  torch.sum_rows rows = foldr (zip_with Rplus) (replicate D 0) rows.
Proof.
  intros Hne HD. destruct rows as [|r rows]; [done |].
  unfold torch.sum_rows. by rewrite (Forall_inv HD).
Qed.

(** A sum of rows with non-negative weights stays, channel by channel,
    between the scaled bounds of the channel. *)
Lemma weighted_sum_bounds (D d : nat) (lo hi : R) :
  (d < D)%nat ->
  forall (rows : list (list R)) (wts : list R),
    length wts = length rows ->
    Forall (fun r => length r = D) rows ->
    Forall (fun wv => 0 <= wv) wts ->
    (forall p r v, rows !! p = Some r -> r !! d = Some v -> lo <= v <= hi) ->
    exists t,
      foldr (zip_with Rplus) (replicate D 0)
        (zip_with (fun wv r => Rmult wv <$> r) wts rows) !! d = Some t /\
      lo * foldr Rplus 0 wts <= t <= hi * foldr Rplus 0 wts.
Proof.
  intros Hd rows.
  induction rows as [|r rows IH]; intros wts Hlen HD Hw Hb.
  - destruct wts; [| done]. simpl. exists 0.
    split; [by apply lookup_replicate_2 | lra].
  - destruct wts as [|wv wts]; [done |].
    apply Forall_cons in HD as [Hr HD].
    apply Forall_cons in Hw as [Hwv Hw].
    destruct (IH wts) as (t' & Ht' & Hbt'); [by injection Hlen | done | done | |].
    { intros p r' v Hp Hv. by apply (Hb (S p) r' v). }
    destruct (lookup_lt_is_Some_2 r d) as [v Hv]; [lia |].
    pose proof (Hb 0%nat r v eq_refl Hv) as Hvb.
    simpl. exists (wv * v + t'). split.
    + rewrite lookup_zip_with, list_lookup_fmap, Hv. simpl. by rewrite Ht'.
    + nra.
Qed.

(** X10. The attention output is a convex combination of the token
    vectors of the whole sequence: every attention weight lies between
    0 and 1, and every channel of the output lies between any lower and
    upper bound of that channel over all positions, inside the span or
    not. *)
Theorem AttnSpanRepr_forward_convex :
  forall input_dim use_proj proj_dim x start_ids end_ids (B L D : nat)
         (w : list R) (c : R) b s e rows (d : nat) (lo hi : R),
    let self := instantiate nn_Linear cls_AttnSpanRepr input_dim use_proj proj_dim in
    let x' := projected nn_Linear input_dim use_proj proj_dim x in
    let l := nn_Linear (if use_proj then proj_dim else input_dim) 1 in
    torch.weight l = [w] -> torch.bias l = [c] ->
    shape3 B L D x' ->
    length start_ids = B -> length end_ids = B ->
    start_ids !! b = Some s -> end_ids !! b = Some e ->
    x' !! b = Some rows ->
    (0 < L)%nat -> (d < D)%nat ->
    (forall p r v, rows !! p = Some r -> r !! d = Some v -> lo <= v <= hi) ->
    exists W out wts row t,
      AttnSpanRepr_attention_wts self x' start_ids end_ids = Ok W /\
      W !! b = Some ((fun v => [v]) <$> wts) /\
      Forall (fun wv => 0 <= wv <= 1) wts /\
      AttnSpanRepr_forward self x start_ids end_ids = Ok out /\
      out !! b = Some row /\ row !! d = Some t /\
      lo <= t <= hi.
Proof.
  intros input_dim use_proj proj_dim x start_ids end_ids B L D w c
    b s e rows d lo hi self x' l Hw Hc Hx Hs He Hbs Hbe Hxb HL0 Hd Hbnd.
  destruct (AttnSpanRepr_forward_rows nn_Linear input_dim use_proj proj_dim x
              start_ids end_ids B L D w c Hw Hc Hx Hs He)
    as (W & out & HW & Hout & _ & _ & Hrows).
  destruct (Hrows b s e rows Hbs Hbe Hxb) as [HWb Hob].
  destruct (shape3_lookup _ _ _ _ _ _ Hx Hxb) as [HL HD].
  set (lg := attn_logits w c s e rows) in *.
  assert (Hlg : length lg = L).
  { unfold lg, attn_logits. rewrite length_zip_with, length_seqZ. lia. }
  set (wts := softmax_list lg) in *.
  assert (Hlw : length wts = length rows).
  { unfold wts, softmax_list. rewrite length_fmap. lia. }
  pose proof (softmax_list_range lg) as Hrange. fold wts in Hrange.
  assert (Hnn : Forall (fun wv => 0 <= wv) wts).
  { eapply Forall_impl; [exact Hrange |]. intros wv [? _]. done. }
  destruct (weighted_sum_bounds D d lo hi Hd rows wts Hlw HD Hnn Hbnd)
    as (t & Ht & Hbt).
  assert (Hsum : foldr Rplus 0 wts = 1).
  { apply softmax_list_sum. intros Hnil. rewrite Hnil in Hlg.
    simpl in Hlg. lia. }
  rewrite Hsum, !Rmult_1_r in Hbt.
  exists W, out, wts. eexists. exists t.
  split; [done |]. split; [done |]. split; [done |]. split; [done |].
  split; [exact Hob |]. split; [| done].
  rewrite (sum_rows_foldr D); [exact Ht | |].
  - intros Hnil. apply (f_equal length) in Hnil.
    rewrite length_zip_with in Hnil. simpl in Hnil. lia.
  - apply Forall_lookup. intros p r' Hr'.
    apply lookup_zip_with_Some in Hr' as (wv & r & -> & _ & Hr).
    rewrite length_fmap. exact (proj1 (Forall_lookup _ _) HD _ _ Hr).
Qed.

(** X11. The mask penalty acts as an exact factor on the weights: for
    an out-of-span position [p] and an in-span position [q] of the same
    batch element, [weight p = exp (score p - score q - 1e10) * weight q];
    for two in-span positions the factor is [exp (score p - score q)],
    so equal scores inside the span give equal weights. *)
Theorem AttnSpanRepr_weight_ratio :
  forall input_dim use_proj proj_dim x start_ids end_ids (B L D : nat)
         (w : list R) (c : R),
    let self := instantiate nn_Linear cls_AttnSpanRepr input_dim use_proj proj_dim in
    let x' := projected nn_Linear input_dim use_proj proj_dim x in
    let l := nn_Linear (if use_proj then proj_dim else input_dim) 1 in
    let score := fun r : list R => torch.dot r w + c in
    torch.weight l = [w] -> torch.bias l = [c] ->
    shape3 B L D x' ->
    length start_ids = B -> length end_ids = B ->
    exists W,
      AttnSpanRepr_attention_wts self x' start_ids end_ids = Ok W /\
      forall b s e rows,
        start_ids !! b = Some s -> end_ids !! b = Some e ->
        x' !! b = Some rows ->
        exists wts : list R,
          W !! b = Some ((fun v => [v]) <$> wts) /\
          forall (p q : nat) rp rq wp wq,
            (s <= Z.of_nat q <= e)%Z ->
            rows !! p = Some rp -> rows !! q = Some rq ->
            wts !! p = Some wp -> wts !! q = Some wq ->
            wp = exp (score rp - score rq
                      - (if ((s <=? Z.of_nat p)%Z && (Z.of_nat p <=? e)%Z)%bool
                         then 0 else big)) * wq.
Proof.
  intros input_dim use_proj proj_dim x start_ids end_ids B L D w c
    self x' l score Hw Hc Hx Hs He.
  destruct (AttnSpanRepr_forward_rows nn_Linear input_dim use_proj proj_dim x
              start_ids end_ids B L D w c Hw Hc Hx Hs He)
    as (W & out & HW & _ & _ & _ & Hrows).
  exists W. split; [done |].
  intros b s e rows Hbs Hbe Hxb.
  destruct (Hrows b s e rows Hbs Hbe Hxb) as [HWb _].
  set (lg := attn_logits w c s e rows) in *.
  exists (softmax_list lg). split; [done |].
  intros p q rp rq wp wq Hq Hrp Hrq Hwp Hwq.
  pose proof (attn_logits_lookup w c s e rows p rp Hrp) as Hlp.
  pose proof (attn_logits_lookup w c s e rows q rq Hrq) as Hlq.
  fold lg in Hlp, Hlq.
  destruct (Z.leb_spec s (Z.of_nat q)); [| lia].
  destruct (Z.leb_spec (Z.of_nat q) e); [| lia].
  simpl in Hlq.
  rewrite (softmax_list_lookup lg p _ Hlp) in Hwp. injection Hwp as <-.
  rewrite (softmax_list_lookup lg q _ Hlq) in Hwq. injection Hwq as <-.
  fold (score rp) (score rq).
  set (S := foldr Rplus 0 (exp <$> lg)).
  assert (HS : 0 < S).
  { apply exp_sum_pos. intros Hnil.
    rewrite Hnil in Hlq. done. }
  set (pen := if ((s <=? Z.of_nat p)%Z && (Z.of_nat p <=? e)%Z)%bool
              then 0 else big).
  match goal with
  | |- exp ?a / S = exp ?g * (exp ?k / S) =>
      replace a with (g + k)
        by (unfold pen, big; destruct (_ && _)%bool; simpl; lra)
  end.
  rewrite exp_plus. field. lra.
Qed.

End AttnConvexFacts.

(** ** The further properties at concrete inputs *)

Section FurtherWitnesses.

Ltac qc_eq := apply Qc_is_canon; vm_compute; reflexivity.
Ltac qc_list :=
  repeat first [ reflexivity | apply (f_equal2 (@cons Qc)); [qc_eq |] ].

(** X5 on the scenario with the end index 5, one past the last position. *)
Lemma boundary_variants_raise_out_of_range_witness :
  shape3 1 5 4 scenario_input /\
  EndPointRepr_forward (instantiate ones_Linear cls_EndPointRepr 4 false 256)
    scenario_input [1] [5] = Raise IndexError /\
  DiffSumSpanRepr_forward (instantiate ones_Linear cls_DiffSumSpanRepr 4 false 256)
    scenario_input [1] [5] = Raise IndexError.
Proof.
  split; [exact scenario_shape |].
  apply (boundary_variants_raise_out_of_range ones_Linear 4 false 256
           scenario_input [1] [5] 1 5 4 0 5 scenario_shape eq_refl eq_refl).
  - right. reflexivity.
  - right. simpl. lia.
Defined.

Lemma negative_ids_in_range :
  Forall (fun i => - Z.of_nat 5 <= i < Z.of_nat 5) [-4] /\
  Forall (fun i => - Z.of_nat 5 <= i < Z.of_nat 5) [-2].
Proof. split; repeat constructor; simpl; lia. Defined.

(** X6 on the scenario: the indices -4 and -2 address rows 1 and 3. *)
Lemma EndPointRepr_forward_wraps_negative_witness :
  shape3 1 5 4 scenario_input /\
  Forall (fun i => - Z.of_nat 5 <= i < Z.of_nat 5) [-4] /\
  Forall (fun i => - Z.of_nat 5 <= i < Z.of_nat 5) [-2] /\
  exists out,
    EndPointRepr_forward (instantiate ones_Linear cls_EndPointRepr 4 false 256)
      scenario_input [-4] [-2] = Ok out /\
    out !! 0%nat
    = Some [qc 4; qc 5; qc 6; qc 7; qc 12; qc 13; qc 14; qc 15].
Proof.
  split; [exact scenario_shape |].
  split; [exact (proj1 negative_ids_in_range) |].
  split; [exact (proj2 negative_ids_in_range) |].
  destruct (EndPointRepr_forward_wraps_negative ones_Linear 4 false 256
              scenario_input [-4] [-2] 1 5 4 scenario_shape eq_refl eq_refl
              (proj1 negative_ids_in_range) (proj2 negative_ids_in_range))
    as (out & Hf & _ & Hrow).
  exists out. split; [exact Hf |].
  destruct (Hrow 0%nat (-4) (-2) _ eq_refl eq_refl eq_refl)
    as (vs & ve & Hvs & Hve & Ho).
  injection Hvs as <-. injection Hve as <-. exact Ho.
Defined.




Lemma ones_Linear_projection_shape :
  length (torch.weight (ones_Linear (A:=Qc) 4 2)) = Z.to_nat 2 /\
  length (torch.bias (ones_Linear (A:=Qc) 4 2)) = Z.to_nat 2.
Proof. split; reflexivity. Defined.

(** X9 on the scenario with the projection active ([proj_dim = 2]). *)
Lemma forward_width_agrees_with_get_output_dim_witness :
  shape3 1 5 (Z.to_nat 4) scenario_input /\
  Forall2 (in_range 5) [1] [3] /\
  agrees_with_output_dim
    (get_output_dim (instantiate ones_Linear cls_MeanSpanRepr 4 true 2))
    (MeanSpanRepr_forward (instantiate ones_Linear cls_MeanSpanRepr 4 true 2)
       scenario_input [1] [3]) /\
  agrees_with_output_dim
    (get_output_dim (instantiate ones_Linear cls_EndPointRepr 4 true 2))
    (EndPointRepr_forward (instantiate ones_Linear cls_EndPointRepr 4 true 2)
       scenario_input [1] [3]).
Proof.
  split; [exact scenario_shape |]. split; [exact scenario_range |].
  destruct (forward_width_agrees_with_get_output_dim ones_Linear 4 true 2
              scenario_input [1] [3] 1 5
              ltac:(lia) ltac:(lia) scenario_shape
              (fun _ => ones_Linear_projection_shape)
              eq_refl eq_refl scenario_range)
    as (Hmean & _ & Hend & _).
  split; [exact Hmean | exact Hend].
Defined.

Lemma high_input_channel_bounds :
  forall (p : nat) (r : list R) (v : R),
    [ [0%R]; [big] ] !! p = Some r -> r !! 0%nat = Some v ->
    (0 <= v <= big)%R.
Proof.
  intros p r v Hr Hv.
  destruct p as [|[|p]]; try done; injection Hr as <-; injection Hv as <-;
    unfold big; simpl; lra.
Defined.

(** X10 on the two-position input: the output lies between 0 and 1e10. *)
Lemma AttnSpanRepr_forward_convex_witness :
  shape3 1 2 1 high_input /\
  exists W out wts row t,
    AttnSpanRepr_attention_wts
      (instantiate ones_Linear cls_AttnSpanRepr 1 false 256)
      high_input [0] [0] = Ok W /\
    W !! 0%nat = Some ((fun v => [v]) <$> wts) /\
    Forall (fun wv => (0 <= wv <= 1)%R) wts /\
    AttnSpanRepr_forward
      (instantiate ones_Linear cls_AttnSpanRepr 1 false 256)
      high_input [0] [0] = Ok out /\
    out !! 0%nat = Some row /\ row !! 0%nat = Some t /\
    (0 <= t <= big)%R.
Proof.
  split; [exact high_input_shape |].
  exact (AttnSpanRepr_forward_convex ones_Linear 1 false 256 high_input
           [0] [0] 1 2 1 [1%R] 0%R 0 0 0 _ 0 0%R big
           ones_Linear_weight ones_Linear_bias high_input_shape
           eq_refl eq_refl eq_refl eq_refl eq_refl
           ltac:(lia) ltac:(lia) high_input_channel_bounds).
Defined.

(** X11 on the two-position input with the span [0..0]: the weight of
    position 1 is the weight of position 0 times
    [exp (score 1 - score 0 - 1e10)]. *)
Lemma AttnSpanRepr_weight_ratio_witness :
  shape3 1 2 1 high_input /\
  exists W wts,
    AttnSpanRepr_attention_wts
      (instantiate ones_Linear cls_AttnSpanRepr 1 false 256)
      high_input [0] [0] = Ok W /\
    W !! 0%nat = Some ((fun v => [v]) <$> wts) /\
    forall wp wq,
      wts !! 1%nat = Some wp -> wts !! 0%nat = Some wq ->
      wp = (exp ((torch.dot [big] [1] + 0) - (torch.dot [0] [1] + 0) - big)
            * wq)%R.
Proof.
  split; [exact high_input_shape |].
  destruct (AttnSpanRepr_weight_ratio ones_Linear 1 false 256 high_input
              [0] [0] 1 2 1 [1%R] 0%R
              ones_Linear_weight ones_Linear_bias high_input_shape
              eq_refl eq_refl)
    as (W & HW & Hrow).
  destruct (Hrow 0%nat 0 0 _ eq_refl eq_refl eq_refl) as (wts & HWb & Hratio).
  exists W, wts. split; [exact HW |]. split; [exact HWb |].
  intros wp wq Hwp Hwq.
  exact (Hratio 1%nat 0%nat [big] [0%R] wp wq ltac:(simpl; lia)
           eq_refl eq_refl Hwp Hwq).
Defined.

End FurtherWitnesses.
